(** * Verification of the logging HTTP server ([server.py])

    A shallow embedding of the request handler, the transcript renderer,
    the replay-command builders and the startup code of [server.py],
    together with the pieces of the Python runtime they call (text codecs,
    Base64, [int], [dict], [textwrap.indent], the method dispatch of
    [http.server], the handlers of [logging]).

    Conventions of the embedding:
    - a Python [str] is a list of Unicode code points ([list N]);
    - a Python [bytes] is a [list byte];
    - a Python [dict] is an association list in insertion order;
    - the effects of a handler (reads on [rfile], calls of the logger and of
      the response API of [BaseHTTPRequestHandler]) are recorded as a trace
      of events threaded through a small state monad. *)

From Stdlib Require Import List String Ascii NArith ZArith Bool Lia ZifyBool.
From Stdlib Require Import Strings.Byte DecimalString.
From Stdlib Require DecimalPos.
Import ListNotations.

Local Open Scope N_scope.

Ltac Zify.zify_post_hook ::= Z.to_euclidean_division_equations.

(* ====================================================================== *)
(** * Part I. Definitions                                                  *)
(* ====================================================================== *)

(** ** Python strings and bytes *)

Definition pystr := list N.
Definition bytes := list byte.

(** A source literal, as the list of its code points. *)
Definition lit (s : string) : pystr :=
  map N_of_ascii (list_ascii_of_string s).

Definition pystr_eqb (a b : pystr) : bool :=
  if list_eq_dec N.eq_dec a b then true else false.

(** [sep.join(parts)] *)
Fixpoint join (sep : pystr) (parts : list pystr) : pystr :=
  match parts with
  | [] => []
  | [p] => p
  | p :: rest => p ++ sep ++ join sep rest
  end.

(** [str(n)] for an integer. *)
Definition str_of_Z (z : Z) : pystr :=
  lit (NilZero.string_of_int (Z.to_int z)).

(** [len(b)] *)
Definition len {A} (l : list A) : Z := Z.of_nat (List.length l).

Definition byte_of_N (n : N) : byte :=
  match Byte.of_N n with
  | Some b => b
  | None => x00
  end.

(** Code points used below. *)
Definition SP : N := 32.     (* space *)
Definition SQ : N := 39.     (* single quote *)
Definition BSL : N := 92.    (* backslash *)
Definition COLON : N := 58.
Definition NL : N := 10.
Definition EQUALS : N := 61.

(** ** Text codecs: [bytes.decode] and [str.encode] *)

Module Codec.

(** One step of the UTF-8 decoder: a decoded code point, or the run of
    bytes an error spans (the lead byte and the continuation bytes accepted
    so far; decoding resumes at the offending byte). *)
Inductive item :=
| Char (cp : N)
| Bad (span : bytes).

Definition is_cont (n : N) : bool := (0x80 <=? n) && (n <=? 0xBF).

(** Admissible second byte after a three-byte lead. *)
Definition second3_ok (lead n : N) : bool :=
  if lead =? 0xE0 then (0xA0 <=? n) && (n <=? 0xBF)
  else if lead =? 0xED then (0x80 <=? n) && (n <=? 0x9F)
  else is_cont n.

(** Admissible second byte after a four-byte lead. *)
Definition second4_ok (lead n : N) : bool :=
  if lead =? 0xF0 then (0x90 <=? n) && (n <=? 0xBF)
  else if lead =? 0xF4 then (0x80 <=? n) && (n <=? 0x8F)
  else is_cont n.

Fixpoint utf8_scan (bs : bytes) : list item :=
  match bs with
  | [] => []
  | b0 :: t0 =>
      let n0 := Byte.to_N b0 in
      if n0 <? 0x80 then Char n0 :: utf8_scan t0
      else if (0xC2 <=? n0) && (n0 <=? 0xDF) then
        match t0 with
        | [] => [Bad [b0]]
        | b1 :: t1 =>
            let n1 := Byte.to_N b1 in
            if is_cont n1
            then Char ((n0 - 0xC0) * 64 + (n1 - 0x80)) :: utf8_scan t1
            else Bad [b0] :: utf8_scan t0
        end
      else if (0xE0 <=? n0) && (n0 <=? 0xEF) then
        match t0 with
        | [] => [Bad [b0]]
        | b1 :: t1 =>
            let n1 := Byte.to_N b1 in
            if second3_ok n0 n1 then
              match t1 with
              | [] => [Bad [b0; b1]]
              | b2 :: t2 =>
                  let n2 := Byte.to_N b2 in
                  if is_cont n2
                  then Char ((n0 - 0xE0) * 4096 + (n1 - 0x80) * 64 + (n2 - 0x80))
                         :: utf8_scan t2
                  else Bad [b0; b1] :: utf8_scan t1
              end
            else Bad [b0] :: utf8_scan t0
        end
      else if (0xF0 <=? n0) && (n0 <=? 0xF4) then
        match t0 with
        | [] => [Bad [b0]]
        | b1 :: t1 =>
            let n1 := Byte.to_N b1 in
            if second4_ok n0 n1 then
              match t1 with
              | [] => [Bad [b0; b1]]
              | b2 :: t2 =>
                  let n2 := Byte.to_N b2 in
                  if is_cont n2 then
                    match t2 with
                    | [] => [Bad [b0; b1; b2]]
                    | b3 :: t3 =>
                        let n3 := Byte.to_N b3 in
                        if is_cont n3
                        then Char ((n0 - 0xF0) * 262144 + (n1 - 0x80) * 4096
                                   + (n2 - 0x80) * 64 + (n3 - 0x80))
                               :: utf8_scan t3
                        else Bad [b0; b1; b2] :: utf8_scan t2
                    end
                  else Bad [b0; b1] :: utf8_scan t1
              end
            else Bad [b0] :: utf8_scan t0
        end
      else Bad [b0] :: utf8_scan t0
  end.

Fixpoint all_chars (l : list item) : option pystr :=
  match l with
  | [] => Some []
  | Char c :: r => option_map (cons c) (all_chars r)
  | Bad _ :: _ => None
  end.

(** [bs.decode("utf-8")]; [None] is [UnicodeDecodeError]. *)
Definition utf8_decode (bs : bytes) : option pystr := all_chars (utf8_scan bs).

(** [bs.decode("utf-8", errors="replace")]: one U+FFFD per error. *)
Definition utf8_decode_replace (bs : bytes) : pystr :=
  flat_map (fun i => match i with Char c => [c] | Bad _ => [0xFFFD] end)
           (utf8_scan bs).

Definition hex_digit (n : N) : N :=
  if n <? 10 then 48 + n else 87 + n.

(** The escape [\xNN] of one byte. *)
Definition backslash_escape (b : byte) : pystr :=
  let n := Byte.to_N b in
  [BSL; 120; hex_digit (n / 16); hex_digit (n mod 16)].

(** [bs.decode("utf-8", errors="backslashreplace")]. *)
Definition utf8_decode_backslashreplace (bs : bytes) : pystr :=
  flat_map (fun i => match i with
                     | Char c => [c]
                     | Bad span => flat_map backslash_escape span
                     end)
           (utf8_scan bs).

(** [bs.decode("latin1")]: every byte is its own code point. *)
Definition latin1_decode (bs : bytes) : pystr := map Byte.to_N bs.

(** [s.encode("latin1")]; [None] is [UnicodeEncodeError]. *)
Fixpoint latin1_encode (s : pystr) : option bytes :=
  match s with
  | [] => Some []
  | c :: r =>
      match Byte.of_N c, latin1_encode r with
      | Some b, Some bs => Some (b :: bs)
      | _, _ => None
      end
  end.

Definition utf8_encode_cp (c : N) : option bytes :=
  if c <? 0x80 then Some [byte_of_N c]
  else if c <? 0x800 then
    Some [byte_of_N (0xC0 + c / 64); byte_of_N (0x80 + c mod 64)]
  else if c <? 0x10000 then
    if (0xD800 <=? c) && (c <=? 0xDFFF) then None
    else Some [byte_of_N (0xE0 + c / 4096);
               byte_of_N (0x80 + (c / 64) mod 64);
               byte_of_N (0x80 + c mod 64)]
  else if c <? 0x110000 then
    Some [byte_of_N (0xF0 + c / 262144);
          byte_of_N (0x80 + (c / 4096) mod 64);
          byte_of_N (0x80 + (c / 64) mod 64);
          byte_of_N (0x80 + c mod 64)]
  else None.

(** [s.encode("utf-8")]; [None] is [UnicodeEncodeError] (lone surrogates). *)
Fixpoint utf8_encode (s : pystr) : option bytes :=
  match s with
  | [] => Some []
  | c :: r =>
      match utf8_encode_cp c, utf8_encode r with
      | Some b, Some bs => Some (b ++ bs)
      | _, _ => None
      end
  end.

End Codec.

(** ** Base64 ([base64.b64encode], RFC 4648 with padding) *)

Module Base64.

Definition alphabet : pystr :=
  lit "ABCDEFGHIJKLMNOPQRSTUVWXYZabcdefghijklmnopqrstuvwxyz0123456789+/".

Definition char_of (sextet : N) : N := nth (N.to_nat sextet) alphabet EQUALS.

Fixpoint b64encode (bs : bytes) : pystr :=
  match bs with
  | [] => []
  | [a] =>
      let x := Byte.to_N a in
      [char_of (x / 4); char_of ((x mod 4) * 16); EQUALS; EQUALS]
  | [a; b] =>
      let x := Byte.to_N a in
      let y := Byte.to_N b in
      [char_of (x / 4); char_of ((x mod 4) * 16 + y / 16);
       char_of ((y mod 16) * 4); EQUALS]
  | a :: b :: c :: rest =>
      let x := Byte.to_N a in
      let y := Byte.to_N b in
      let z := Byte.to_N c in
      char_of (x / 4) :: char_of ((x mod 4) * 16 + y / 16)
        :: char_of ((y mod 16) * 4 + z / 64) :: char_of (z mod 64)
        :: b64encode rest
  end.

(** The decoder a reader of the log applies to the field
    ([base64.b64decode] on canonical input); [None] on malformed text. *)
Definition index_of (c : N) : option N :=
  if (65 <=? c) && (c <=? 90) then Some (c - 65)
  else if (97 <=? c) && (c <=? 122) then Some (c - 71)
  else if (48 <=? c) && (c <=? 57) then Some (c + 4)
  else if c =? 43 then Some 62
  else if c =? 47 then Some 63
  else None.

(** The values a Base64 character stands for. *)
Definition sextets : list N := map N.of_nat (seq 0 64).

Definition is_nil {A} (l : list A) : bool :=
  match l with [] => true | _ => false end.

Fixpoint b64decode (s : pystr) : option bytes :=
  match s with
  | [] => Some []
  | c0 :: c1 :: c2 :: c3 :: rest =>
      match index_of c0, index_of c1 with
      | Some s0, Some s1 =>
          let a := byte_of_N (s0 * 4 + s1 / 16) in
          if c2 =? EQUALS then
            if (c3 =? EQUALS) && is_nil rest && (s1 mod 16 =? 0)
            then Some [a] else None
          else
            match index_of c2 with
            | Some s2 =>
                let b := byte_of_N ((s1 mod 16) * 16 + s2 / 4) in
                if c3 =? EQUALS then
                  if is_nil rest && (s2 mod 4 =? 0) then Some [a; b] else None
                else
                  match index_of c3, b64decode rest with
                  | Some s3, Some tl =>
                      Some (a :: b :: byte_of_N ((s2 mod 4) * 64 + s3) :: tl)
                  | _, _ => None
                  end
            | None => None
            end
      | _, _ => None
      end
  | _ => None
  end.

End Base64.

(** ** Pieces of the Python runtime the program calls *)

Module Py.

Definition in_range (lo hi c : N) : bool := (lo <=? c) && (c <=? hi).

(** [str.isspace] on one code point (what [str.strip] removes). *)
Definition is_space (c : N) : bool :=
  in_range 9 13 c || in_range 28 32 c || (c =? 133) || (c =? 160)
  || (c =? 5760) || in_range 8192 8202 c || in_range 8232 8233 c
  || (c =? 8239) || (c =? 8287) || (c =? 12288).

(** The white space [int] skips around a number: the ASCII white space of
    C, and the Unicode spaces above U+007F. *)
Definition is_int_space (c : N) : bool :=
  in_range 9 13 c || (c =? 32) || ((127 <=? c) && is_space c).

Fixpoint lstrip_by (p : N -> bool) (s : pystr) : pystr :=
  match s with
  | [] => []
  | c :: r => if p c then lstrip_by p r else s
  end.

Definition strip_by (p : N -> bool) (s : pystr) : pystr :=
  rev (lstrip_by p (rev (lstrip_by p s))).

(** [s.strip()] *)
Definition strip : pystr -> pystr := strip_by is_space.

Definition digit_val (c : N) : option Z :=
  if in_range 48 57 c then Some (Z.of_N (c - 48)) else None.

(** Digits with single underscores between them; returns the value and the
    number of digits read. *)
Fixpoint parse_digits (s : pystr) (acc : Z) (count : nat) (after_digit : bool)
  : option (Z * nat) :=
  match s with
  | [] => if after_digit then Some (acc, count) else None
  | c :: r =>
      match digit_val c with
      | Some d => parse_digits r (acc * 10 + d) (S count) true
      | None =>
          if (c =? 95) && after_digit then parse_digits r acc count false
          else None
      end
  end.

(** [sys.get_int_max_str_digits()], the default. *)
Definition int_max_str_digits : nat := 4300.

Definition parse_unsigned (s : pystr) : option Z :=
  match parse_digits s 0%Z 0%nat false with
  | Some (v, n) => if Nat.leb n int_max_str_digits then Some v else None
  | None => None
  end.

(** [int(s)] for a [str] in base 10; [None] is [ValueError].  The header
    values it is applied to are decoded as Latin-1 by [http.server], where
    the only decimal digits are the ASCII ones. *)
Definition int_of_str (s : pystr) : option Z :=
  match strip_by is_int_space s with
  | [] => None
  | c :: r =>
      if c =? 45 then option_map Z.opp (parse_unsigned r)
      else if c =? 43 then parse_unsigned r
      else parse_unsigned (c :: r)
  end.

(** [str.lower] on one code point, for the Latin-1 range (header names). *)
Definition lower_cp (c : N) : N :=
  if in_range 65 90 c || (in_range 192 222 c && negb (c =? 215))
  then c + 32 else c.

Definition lower (s : pystr) : pystr := map lower_cp s.

(** [s.replace(old, new)] for a one-character [old]. *)
Definition replace1 (old : N) (new : pystr) (s : pystr) : pystr :=
  flat_map (fun c => if c =? old then new else [c]) s.

(** *** [dict] with [str] keys, in insertion order *)

Definition dict := list (pystr * pystr).

(** [d[k] = v]: an existing key keeps its place and takes the new value. *)
Fixpoint dict_set (d : dict) (k v : pystr) : dict :=
  match d with
  | [] => [(k, v)]
  | (k', v') :: r =>
      if pystr_eqb k' k then (k', v) :: r else (k', v') :: dict_set r k v
  end.

(** [{k: v for k, v in items}]: one [d[k] = v] per item, in order. *)
Definition dict_step (d : dict) (kv : pystr * pystr) : dict :=
  dict_set d (fst kv) (snd kv).

Definition dict_of_items (items : list (pystr * pystr)) : dict :=
  fold_left dict_step items [].

Fixpoint dict_get (d : dict) (k : pystr) : option pystr :=
  match d with
  | [] => None
  | (k', v) :: r => if pystr_eqb k' k then Some v else dict_get r k
  end.

(** *** [email.message.Message] as [http.server] fills it *)

(** [msg.get(name)]: the first header whose name matches, case ignored. *)
Fixpoint message_get (items : list (pystr * pystr)) (name : pystr)
  : option pystr :=
  match items with
  | [] => None
  | (k, v) :: r =>
      if pystr_eqb (lower k) (lower name) then Some v else message_get r name
  end.

(** *** [textwrap.indent] *)

Definition is_linebreak (c : N) : bool :=
  in_range 10 13 c || in_range 28 30 c || (c =? 133) || in_range 8232 8233 c.

(** [s.splitlines(True)], [cur] being the line read so far. *)
Fixpoint splitlines_keep (cur s : pystr) : list pystr :=
  match s with
  | [] => match cur with [] => [] | _ => [cur] end
  | c :: r =>
      if is_linebreak c then
        match r with
        | c' :: r' =>
            if (c =? 13) && (c' =? 10)
            then (cur ++ [c; c']) :: splitlines_keep [] r'
            else (cur ++ [c]) :: splitlines_keep [] r
        | [] => [cur ++ [c]]
        end
      else splitlines_keep (cur ++ [c]) r
  end.

(** [textwrap.indent(text, prefix)]: lines holding only white space are
    left alone. *)
Definition indent (text prefix : pystr) : pystr :=
  List.concat (map (fun line => match strip line with
                           | [] => line
                           | _ => prefix ++ line
                           end)
              (splitlines_keep [] text)).

(** What the embedding takes from the interpreter as it is: [repr] of a
    [str] and of a [dict], and [textwrap.dedent]. *)
Record runtime := {
  repr_str : pystr -> pystr;
  repr_dict : dict -> pystr;
  dedent : pystr -> pystr
}.

End Py.

(** ** Helpers of [server.py] *)

(** [_shell_quote]: a shell-safe single-quoted string. *)
Definition _shell_quote (value : pystr) : pystr :=
  [SQ] ++ Py.replace1 SQ [SQ; BSL; SQ; SQ] value ++ [SQ].

Definition build_curl (method url : pystr) (headers : Py.dict) (body : bytes)
  : pystr :=
  let parts := [lit "curl"; lit "-i"; lit "-X"; method] in
  let parts :=
    fold_left (fun parts kv =>
                 parts ++ [lit "-H";
                           _shell_quote (fst kv ++ lit ": " ++ snd kv)])
              headers parts in
  let parts :=
    match body with
    | [] => parts
    | _ =>
        match Codec.utf8_decode body with
        | Some body_text => parts ++ [lit "--data-raw"; _shell_quote body_text]
        | None =>
            parts ++ [lit "--data-binary";
                      _shell_quote (Codec.latin1_decode body)]
        end
    end in
  let parts := parts ++ [_shell_quote url] in
  join (lit " ") parts.

Definition build_httpie (method url : pystr) (headers : Py.dict) (body : bytes)
  : pystr :=
  let parts := [lit "http"; lit "-v"; method; _shell_quote url] in
  let parts :=
    fold_left (fun parts kv =>
                 parts ++ [_shell_quote (fst kv ++ lit ":" ++ snd kv)])
              headers parts in
  let parts :=
    match body with
    | [] => parts
    | _ =>
        match Codec.utf8_decode body with
        | Some body_text => parts ++ [lit "--raw"; _shell_quote body_text]
        | None =>
            parts ++ [lit "--raw"; _shell_quote (Codec.latin1_decode body)]
        end
    end in
  join (lit " ") parts.

Definition build_python_requests (rt : Py.runtime) (method url : pystr)
    (headers : Py.dict) (body : bytes) : pystr :=
  let body_literal :=
    Py.repr_str rt (Codec.utf8_decode_backslashreplace body) in
  let headers_literal := Py.repr_dict rt headers in
  let snippet :=
    [NL] ++ lit "import requests" ++ [NL]
    ++ [NL]
    ++ lit "url = " ++ Py.repr_str rt url ++ [NL]
    ++ lit "headers = " ++ headers_literal ++ [NL]
    ++ lit "data = " ++ body_literal ++ [NL]
    ++ [NL]
    ++ lit "resp = requests.request(" ++ Py.repr_str rt method
    ++ lit ", url, headers=headers, data=data)" ++ [NL]
    ++ lit "print(resp.status_code)" ++ [NL]
    ++ lit "print(resp.text)" ++ [NL] in
  Py.strip (Py.dedent rt snippet).

(** ** Effects of a request handler *)

(** What a handler can do to the outside: read the request stream, hand a
    message to the logger, and call the response API of
    [BaseHTTPRequestHandler].  An event is the call, not the bytes it puts
    on the wire: [send_header] encodes its line as Latin-1 and raises for
    a value that has none, and for a request of HTTP/0.9 [send_response]
    and [send_header] write nothing. *)
Inductive event :=
| RfileRead (n : Z)
| LoggerInfo (msg : pystr)
| SendResponse (code : Z)
| SendHeader (keyword value : pystr)
| EndHeaders
| WfileWrite (data : bytes)
| SendError (code : Z) (message : pystr).

(** The part of the world a handler reads: the unread bytes of the
    connection and the wall clock, as
    [datetime.now().isoformat(timespec="seconds")] renders it. *)
Record world := {
  rfile : bytes;
  clock : pystr
}.

(** State and trace passing. *)
Definition M (A : Type) : Type := world -> A * world * list event.

Definition ret {A} (a : A) : M A := fun w => (a, w, []).

Definition bind {A B} (m : M A) (k : A -> M B) : M B :=
  fun w =>
    let '(a, w1, t1) := m w in
    let '(b, w2, t2) := k a w1 in
    (b, w2, t1 ++ t2).

Declare Scope handler_scope.
Delimit Scope handler_scope with handler.
Notation "x <- m ;; k" := (bind m (fun x => k))
  (at level 61, m at next level, right associativity) : handler_scope.
Notation "m ;; k" := (bind m (fun _ => k))
  (at level 61, right associativity) : handler_scope.

Definition emit_event (e : event) : M unit := fun w => (tt, w, [e]).

(** [self.rfile.read(n)] for a positive [n]: up to [n] bytes, fewer at the
    end of the stream.  This is the call for a length the reader can
    allocate; for a larger one the real call raises and delivers nothing,
    which the embedding does not follow: properties that depend on a read
    are stated for lengths within the stream. *)
Definition rfile_read (n : Z) : M bytes :=
  fun w =>
    (firstn (Z.to_nat n) (rfile w),
     {| rfile := skipn (Z.to_nat n) (rfile w); clock := clock w |},
     [RfileRead n]).

Definition datetime_now : M pystr := fun w => (clock w, w, []).

Definition trace {A} (m : M A) (w : world) : list event := snd (m w).
Definition result {A} (m : M A) (w : world) : A := fst (fst (m w)).
Definition final {A} (m : M A) (w : world) : world := snd (fst (m w)).

(** ** The server and its handler *)

(** [LogServer]: the attributes set by [__init__] and by [server_bind];
    the logger is the sink of the [LoggerInfo] events. *)
Record LogServer := {
  server_name : pystr;
  server_port : Z;
  response_body : bytes;
  response_content_type : pystr
}.





(** [LoggingHandler] after [parse_request]; [headers] is
    [self.headers.items()], every header line in arrival order. *)
Record LoggingHandler := {
  command : pystr;
  path : pystr;
  headers : list (pystr * pystr);
  client_address : pystr * Z;
  server : LogServer
}.

(** Python's [a or b] on strings. *)
Definition str_or (a b : pystr) : pystr :=
  match a with
  | [] => b
  | _ => a
  end.

Definition headers_block (headers : Py.dict) : pystr :=
  str_or (join [NL] (map (fun kv => lit "  - " ++ fst kv ++ lit ": " ++ snd kv)
                         headers))
         (lit "  - (none)").

(** The list [lines] of [LogServer.log_request]. *)
Definition lines (rt : Py.runtime) (timestamp method path url : pystr)
    (headers : Py.dict) (body : bytes) (client : pystr) : list pystr :=
  let body_utf8 :=
    match body with [] => [] | _ => Codec.utf8_decode_replace body end in
  let body_b64 :=
    match body with [] => [] | _ => Base64.b64encode body end in
  let curl_cmd := build_curl method url headers body in
  let httpie_cmd := build_httpie method url headers body in
  let requests_snippet := build_python_requests rt method url headers body in
  [ lit "----- REQUEST START " ++ timestamp ++ lit " -----";
    lit "client: " ++ client;
    lit "method: " ++ method;
    lit "path: " ++ path;
    lit "url: " ++ url;
    lit "headers:";
    headers_block headers;
    lit "body:";
    lit "  length: " ++ str_of_Z (len body) ++ lit " bytes";
    lit "  utf8: " ++ body_utf8;
    lit "  base64: " ++ body_b64;
    lit "replay:";
    lit "  curl: |";
    Py.indent curl_cmd (lit "    ");
    lit "  httpie: |";
    Py.indent httpie_cmd (lit "    ");
    lit "  python_requests: |";
    Py.indent requests_snippet (lit "    ");
    lit "----- REQUEST END " ++ timestamp ++ lit " -----" ++ [NL] ].

(** Reading a field of a transcript back: the text that follows [label]
    on line [i] of the block. *)
Fixpoint strip_prefix (label line : pystr) : option pystr :=
  match label, line with
  | [], _ => Some line
  | a :: label', b :: line' =>
      if a =? b then strip_prefix label' line' else None
  | _ :: _, [] => None
  end.

Definition field (i : nat) (label : pystr) (block : list pystr)
  : option pystr :=
  match nth_error block i with
  | Some line => strip_prefix label line
  | None => None
  end.

Local Open Scope handler_scope.

(** [LogServer.log_request] *)
Definition log_request (rt : Py.runtime) (method path url : pystr)
    (headers : Py.dict) (body : bytes) (client : pystr) : M unit :=
  timestamp <- datetime_now ;;
  emit_event
    (LoggerInfo (join [NL] (lines rt timestamp method path url headers body client))).

(** [LoggingHandler._read_body] *)
Definition _read_body (self : LoggingHandler) : M bytes :=
  match Py.message_get (headers self) (lit "Content-Length") with
  | None => ret []
  | Some [] => ret []
  | Some length_str =>
      let length :=
        match Py.int_of_str length_str with
        | Some n => n
        | None => 0%Z
        end in
      if (length >? 0)%Z then rfile_read length else ret []
  end.

(** The locals [host_header] and [full_url] of [_respond]:
    [self.headers.get("Host", f"{server_name}:{server_port}")] and
    [f"http://{host_header}{self.path}"]. *)
Definition host_header (self : LoggingHandler) : pystr :=
  match Py.message_get (headers self) (lit "Host") with
  | Some h => h
  | None =>
      server_name (server self) ++ lit ":"
      ++ str_of_Z (server_port (server self))
  end.

Definition full_url (self : LoggingHandler) : pystr :=
  lit "http://" ++ host_header self ++ path self.

(** [LoggingHandler._respond] *)
Definition _respond (rt : Py.runtime) (self : LoggingHandler) : M unit :=
  body <- _read_body self ;;
  log_request rt (command self) (path self) (full_url self)
              (Py.dict_of_items (headers self)) body
              (fst (client_address self)) ;;
  emit_event (SendResponse 200) ;;
  emit_event (SendHeader (lit "Content-Type")
                         (response_content_type (server self))) ;;
  emit_event (SendHeader (lit "Content-Length")
                         (str_of_Z (len (response_body (server self))))) ;;
  emit_event EndHeaders ;;
  emit_event (WfileWrite (response_body (server self))).

(** The names the class body binds to [_respond]:
    [do_GET = do_POST = do_PUT = do_PATCH = do_DELETE = do_OPTIONS = _respond]. *)
Definition do_names : list pystr :=
  [lit "do_GET"; lit "do_POST"; lit "do_PUT"; lit "do_PATCH";
   lit "do_DELETE"; lit "do_OPTIONS"].

(** [getattr(self, mname)] for a name that starts with [do_]; the base
    class defines no such attribute. *)
Definition getattr_do (mname : pystr)
  : option (Py.runtime -> LoggingHandler -> M unit) :=
  if existsb (pystr_eqb mname) do_names then Some _respond else None.

(** The dispatch of [BaseHTTPRequestHandler.handle_one_request], which the
    class inherits, for a request [parse_request] has accepted:
    [mname = 'do_' + self.command]; without such an attribute the request
    is refused with [send_error(501, "Unsupported method (%r)")]. *)
Definition handle_one_request (rt : Py.runtime) (self : LoggingHandler)
  : M unit :=
  let mname := lit "do_" ++ command self in
  match getattr_do mname with
  | None =>
      emit_event
        (SendError 501
           (lit "Unsupported method (" ++ Py.repr_str rt (command self)
            ++ lit ")"))
  | Some method => method rt self
  end.

Local Close Scope handler_scope.

(** ** Notions the properties are stated with *)

(** The block of lines [_respond] hands to [log_request] for a request. *)
Definition transcript (rt : Py.runtime) (self : LoggingHandler) (w : world)
  : list pystr :=
  lines rt (clock w) (command self) (path self) (full_url self)
        (Py.dict_of_items (headers self)) (result (_read_body self) w)
        (fst (client_address self)).

(** The response [_respond] sends: status 200, the two headers, the body. *)
Definition fixed_response (srv : LogServer) : list event :=
  [ SendResponse 200;
    SendHeader (lit "Content-Type") (response_content_type srv);
    SendHeader (lit "Content-Length") (str_of_Z (len (response_body srv)));
    EndHeaders;
    WfileWrite (response_body srv) ].

Definition is_log (e : event) : bool :=
  match e with
  | LoggerInfo _ => true
  | _ => false
  end.

(** Events that put something on the wire towards the client. *)
Definition is_response (e : event) : bool :=
  match e with
  | SendResponse _ | SendHeader _ _ | EndHeaders | WfileWrite _
  | SendError _ _ => true
  | _ => false
  end.

Definition is_read (e : event) : bool :=
  match e with
  | RfileRead _ => true
  | _ => false
  end.

Definition is_status (code : Z) (e : event) : bool :=
  match e with
  | SendResponse c => (c =? code)%Z
  | _ => false
  end.

Definition is_write (e : event) : bool :=
  match e with
  | WfileWrite _ => true
  | _ => false
  end.

(** Every read the handler issues asks for no more than the connection
    holds, so that [rfile.read] can deliver it; the embedding of
    [rfile.read] says nothing of a length beyond what the reader can
    allocate, for which the real call raises. *)
Definition reads_available (self : LoggingHandler) (w : world) : Prop :=
  forall n,
    In (RfileRead n) (trace (_read_body self) w) -> (n <= len (rfile w))%Z.

(** A text [send_header] can put on the wire: it encodes its line as
    Latin-1, strictly, so every code point must be below 256. *)
Definition latin1_text (s : pystr) : bool := forallb (fun c => c <? 256) s.

(** A request as [parse_request] leaves it, for a given method token. *)
Definition request (method path : pystr) (headers : list (pystr * pystr))
    (client : pystr * Z) (srv : LogServer) : LoggingHandler :=
  {| command := method; path := path; headers := headers;
     client_address := client; server := srv |}.

(** A runtime for worked examples: a [repr] that only wraps its argument
    in quotes or braces, a [dedent] that changes nothing. *)
Definition example_runtime : Py.runtime :=
  {| Py.repr_str := fun s => [SQ] ++ s ++ [SQ];
     Py.repr_dict := fun d => lit "{" ++ join (lit ", ") (map fst d) ++ lit "}";
     Py.dedent := fun s => s |}.

Definition example_server : LogServer :=
  {| server_name := lit "localhost"; server_port := 6565;
     response_body := [x6f; x6b];
     response_content_type := lit "text/plain" |}.

Definition example_client : pystr * Z := (lit "127.0.0.1", 4242%Z).

(** A connection with two unread bytes. *)
Definition example_world : world :=
  {| rfile := [x7b; x7d]; clock := lit "2024-05-01T10:00:00" |}.

(** The names of a header list in order of first arrival, [seen] being the
    names met before. *)
Fixpoint first_occurrences (seen names : list pystr) : list pystr :=
  match names with
  | [] => []
  | k :: r =>
      if existsb (pystr_eqb k) seen then first_occurrences seen r
      else k :: first_occurrences (k :: seen) r
  end.

(** The value of the last header named exactly [k]. *)
Definition last_value (items : list (pystr * pystr)) (k : pystr)
  : option pystr :=
  Py.dict_get (rev items) k.






(** ** Reading a replay command back *)

Module Replay.

(** A word of the command line: written as it is, or single-quoted and
    unescaped by the quoting rule (['] is written ['\'']). *)
Inductive token :=
| Plain (s : pystr)
| Quoted (s : pystr).

Inductive mode :=
| Start
| InPlain (acc : pystr)
| InQuote (acc : pystr)
| Closed.

Definition push (t : token) (k : option (list token)) : option (list token) :=
  option_map (cons t) k.

(** Words are separated by one space; inside quotes everything up to the
    closing quote is literal, and a closing quote followed by [\''] is an
    escaped quote. *)
Fixpoint scan (m : mode) (s : pystr) : option (list token) :=
  match s with
  | [] =>
      match m with
      | Start => None
      | InPlain acc => Some [Plain acc]
      | InQuote _ => None
      | Closed => Some []
      end
  | c :: r =>
      match m with
      | Start =>
          if c =? SQ then scan (InQuote []) r
          else if c =? SP then None
          else scan (InPlain [c]) r
      | InPlain acc =>
          if c =? SP then push (Plain acc) (scan Start r)
          else if c =? SQ then None
          else scan (InPlain (acc ++ [c])) r
      | InQuote acc =>
          if c =? SQ then
            match r with
            | c1 :: c2 :: c3 :: r' =>
                if (c1 =? BSL) && (c2 =? SQ) && (c3 =? SQ)
                then scan (InQuote (acc ++ [SQ])) r'
                else push (Quoted acc) (scan Closed r)
            | _ => push (Quoted acc) (scan Closed r)
            end
          else scan (InQuote (acc ++ [c])) r
      | Closed => if c =? SP then scan Start r else None
      end
  end.

Definition tokens (s : pystr) : option (list token) :=
  match s with
  | [] => Some []
  | _ => scan Start s
  end.

(** The text up to the first colon, and the text after it. *)
Fixpoint split_colon (s : pystr) : option (pystr * pystr) :=
  match s with
  | [] => None
  | c :: r =>
      if c =? COLON then Some ([], r)
      else option_map (fun kv => (c :: fst kv, snd kv)) (split_colon r)
  end.

(** A header as curl takes it: [key: value]. *)
Definition curl_header (s : pystr) : option (pystr * pystr) :=
  match split_colon s with
  | Some (k, c :: v) => if c =? SP then Some (k, v) else None
  | _ => None
  end.

(** The arguments of curl after the method: headers, the body (read back
    as UTF-8 after [--data-raw], as Latin-1 after [--data-binary]) and the
    URL. *)
Fixpoint read_curl_args (ts : list token) : option (Py.dict * bytes * pystr) :=
  match ts with
  | [Quoted u] => Some ([], [], u)
  | Plain f :: Quoted v :: r =>
      if pystr_eqb f (lit "-H") then
        match curl_header v, read_curl_args r with
        | Some kv, Some (hs, b, u) => Some (kv :: hs, b, u)
        | _, _ => None
        end
      else
        let data :=
          if pystr_eqb f (lit "--data-raw") then Codec.utf8_encode v
          else if pystr_eqb f (lit "--data-binary") then Codec.latin1_encode v
          else None in
        match data, r with
        | Some b, [Quoted u] => Some ([], b, u)
        | _, _ => None
        end
  | _ => None
  end.

(** The request a curl replay string stands for:
    method, URL, headers, body. *)
Definition read_curl (s : pystr) : option (pystr * pystr * Py.dict * bytes) :=
  match tokens s with
  | Some (Plain c :: Plain i :: Plain x :: Plain m :: rest) =>
      if pystr_eqb c (lit "curl") && pystr_eqb i (lit "-i")
         && pystr_eqb x (lit "-X")
      then
        match read_curl_args rest with
        | Some (hs, b, u) => Some (m, u, hs, b)
        | None => None
        end
      else None
  | _ => None
  end.

(** The arguments of httpie after the URL: headers [key:value], then the
    body text after [--raw], if any. *)
Fixpoint read_httpie_args (ts : list token) : option (Py.dict * option pystr) :=
  match ts with
  | [] => Some ([], None)
  | Quoted v :: r =>
      match split_colon v, read_httpie_args r with
      | Some kv, Some (hs, b) => Some (kv :: hs, b)
      | _, _ => None
      end
  | [Plain f; Quoted t] =>
      if pystr_eqb f (lit "--raw") then Some ([], Some t) else None
  | _ => None
  end.

(** The request an httpie replay string stands for: method, URL, headers,
    and the text given to [--raw]. *)
Definition read_httpie (s : pystr)
  : option (pystr * pystr * Py.dict * option pystr) :=
  match tokens s with
  | Some (Plain h :: Plain v :: Plain m :: Quoted u :: rest) =>
      if pystr_eqb h (lit "http") && pystr_eqb v (lit "-v")
      then
        match read_httpie_args rest with
        | Some (hs, b) => Some (m, u, hs, b)
        | None => None
        end
      else None
  | _ => None
  end.

(** The text either command-line form carries for a body. *)
Definition body_text (body : bytes) : option pystr :=
  match body with
  | [] => None
  | _ =>
      match Codec.utf8_decode body with
      | Some t => Some t
      | None => Some (Codec.latin1_decode body)
      end
  end.

(** A word that can stand unquoted: not empty, no space, no quote. *)
Definition plain_word (s : pystr) : Prop :=
  s <> [] /\ ~ In SP s /\ ~ In SQ s.

(** What may follow a closing quote: the end of the line or a space. *)
Definition ends_word (rest : pystr) : Prop :=
  rest = [] \/ exists r, rest = SP :: r.

(** How a word is written on the command line. *)
Definition render (t : token) : pystr :=
  match t with
  | Plain s => s
  | Quoted s => _shell_quote s
  end.

Definition word_ok (t : token) : Prop :=
  match t with
  | Plain s => plain_word s
  | Quoted _ => True
  end.

(** The words [build_curl] collects in [parts]. *)
Definition curl_data_words (body : bytes) : list token :=
  match body with
  | [] => []
  | _ =>
      match Codec.utf8_decode body with
      | Some body_text => [Plain (lit "--data-raw"); Quoted body_text]
      | None => [Plain (lit "--data-binary"); Quoted (Codec.latin1_decode body)]
      end
  end.

Definition curl_words (method url : pystr) (headers : Py.dict) (body : bytes)
  : list token :=
  [Plain (lit "curl"); Plain (lit "-i"); Plain (lit "-X"); Plain method]
  ++ flat_map (fun kv => [Plain (lit "-H");
                          Quoted (fst kv ++ lit ": " ++ snd kv)]) headers
  ++ curl_data_words body
  ++ [Quoted url].

(** The words [build_httpie] collects in [parts]. *)
Definition httpie_data_words (body : bytes) : list token :=
  match body_text body with
  | Some t => [Plain (lit "--raw"); Quoted t]
  | None => []
  end.

Definition httpie_words (method url : pystr) (headers : Py.dict) (body : bytes)
  : list token :=
  [Plain (lit "http"); Plain (lit "-v"); Plain method; Quoted url]
  ++ flat_map (fun kv => [Quoted (fst kv ++ lit ":" ++ snd kv)]) headers
  ++ httpie_data_words body.

End Replay.

(** ** Startup: content type, logger, [main] *)

Module Startup.

(** [s.startswith(prefix)] *)
Fixpoint startswith (prefix s : pystr) : bool :=
  match prefix, s with
  | [], _ => true
  | a :: prefix', b :: s' => (a =? b) && startswith prefix' s'
  | _ :: _, [] => false
  end.

(** [sub in s] *)
Fixpoint contains (sub s : pystr) : bool :=
  startswith sub s
  || match s with
     | [] => false
     | _ :: r => contains sub r
     end.

(** [determine_content_type]; [guess_type path] is the first component of
    [mimetypes.guess_type(path)]. *)
Definition determine_content_type (guess_type : pystr -> option pystr)
    (path : pystr) (override : option pystr) : pystr :=
  match override with
  | Some (c :: o) => c :: o
  | _ =>
      match guess_type path with
      | None | Some [] => lit "text/plain; charset=utf-8"
      | Some guessed =>
          if startswith (lit "text/") guessed
             && negb (contains (lit "charset") guessed)
          then guessed ++ lit "; charset=utf-8"
          else guessed
      end
  end.

(** The handlers [configure_logger] attaches; both format a record as its
    message alone and end it with a newline. *)
Inductive log_handler :=
| FileHandler (path : pystr)
| StreamHandler.

(** What the process does to the system. *)
Inductive sys_event :=
| OpenRead (path : pystr)
| Makedirs (directory : pystr)
| Truncate (path : pystr)
| OpenAppend (path : pystr)
| FileEmit (path : pystr) (message : pystr)
| StreamEmit (message : pystr)
| Bind (host : pystr) (port : Z)
| ServeForever (srv : LogServer)
| ServerClose.

Inductive exn :=
| OSError
| KeyboardInterrupt
| OtherError.

Inductive outcome (A : Type) :=
| Returned (a : A)
| Raised (e : exn).
Arguments Returned {A} a.
Arguments Raised {A} e.

(** The state [main] and its helpers work on: the logger named
    [log_server] (its level, 0 being unset, and its handlers) and the paths
    known to exist. *)
Record process := {
  level : Z;
  handlers : list log_handler;
  existing : list pystr
}.

(** What the system decides: the content of a file ([None]: it cannot be
    opened), which steps fail, the guess of [mimetypes], [os.path], the
    name and port the bound socket reports, and how [serve_forever] ends. *)
Record os_env := {
  file_content : pystr -> option bytes;
  raises : sys_event -> bool;
  guess_type : pystr -> option pystr;
  abspath : pystr -> pystr;
  dirname : pystr -> pystr;
  bound_name : pystr -> Z -> pystr;
  bound_port : pystr -> Z -> Z;
  serve_ends_with : exn
}.

Definition Sys (A : Type) : Type :=
  process -> list sys_event * process * outcome A.

Definition sret {A} (a : A) : Sys A := fun p => ([], p, Returned a).

Definition sbind {A B} (m : Sys A) (k : A -> Sys B) : Sys B :=
  fun p =>
    match m p with
    | (t1, p1, Returned a) =>
        let '(t2, p2, o) := k a p1 in (t1 ++ t2, p2, o)
    | (t1, p1, Raised e) => (t1, p1, Raised e)
    end.

Declare Scope sys_scope.
Delimit Scope sys_scope with sys.
Notation "x <- m ;; k" := (sbind m (fun x => k))
  (at level 61, m at next level, right associativity) : sys_scope.
Notation "m ;; k" := (sbind m (fun _ => k))
  (at level 61, right associativity) : sys_scope.

Local Open Scope sys_scope.

(** A step that raises [OSError] when the system refuses it. *)
Definition attempt (env : os_env) (e : sys_event) : Sys unit :=
  fun p => ([e], p, if raises env e then Raised OSError else Returned tt).

(** [try: body  except KeyboardInterrupt: handler  finally: cleanup] *)
Definition try_except_finally (body handler cleanup : Sys unit) : Sys unit :=
  fun p =>
    let '(t1, p1, o1) := body p in
    let '(t2, p2, o2) :=
      match o1 with
      | Raised KeyboardInterrupt => handler p1
      | _ => ([], p1, o1)
      end in
    let '(t3, p3, o3) := cleanup p2 in
    (t1 ++ t2 ++ t3, p3,
     match o3 with
     | Raised e => Raised e
     | Returned _ => o2
     end).

(** [load_response_body] *)
Definition load_response_body (env : os_env) (path : pystr) : Sys bytes :=
  fun p =>
    ([OpenRead path], p,
     match file_content env path with
     | Some content => Returned content
     | None => Raised OSError
     end).

Definition path_exists (p : process) (path : pystr) : bool :=
  existsb (pystr_eqb path) (existing p).

(** [ensure_log_dir] *)
Definition ensure_log_dir (env : os_env) (path : pystr) : Sys unit :=
  let directory := dirname env (abspath env path) in
  fun p =>
    match directory with
    | [] => sret tt p
    | _ =>
        if path_exists p directory then sret tt p
        else
          (attempt env (Makedirs directory) ;;
           fun p' =>
             ([], {| level := level p'; handlers := handlers p';
                     existing := directory :: existing p' |}, Returned tt)) p
    end.

(** [logging.INFO] and the level of the root logger, [logging.WARNING]. *)
Definition INFO : Z := 20.
Definition WARNING : Z := 30.

(** [logger.isEnabledFor(INFO)]: an unset level defers to the root. *)
Definition enabled_for_info (p : process) : bool :=
  ((if level p =? 0 then WARNING else level p) <=? INFO)%Z.

Definition emit_record (message : pystr) (h : log_handler) : sys_event :=
  match h with
  | FileHandler path => FileEmit path message
  | StreamHandler => StreamEmit message
  end.

(** [logger.info(message)] *)
Definition logger_info (message : pystr) : Sys unit :=
  fun p =>
    (if enabled_for_info p then map (emit_record message) (handlers p) else [],
     p, Returned tt).

(** [configure_logger] *)
Definition configure_logger (env : os_env) (log_path : pystr) : Sys unit :=
  ensure_log_dir env log_path ;;
  (fun p => ([], {| level := INFO; handlers := handlers p;
                    existing := existing p |}, Returned tt)) ;;
  fun p =>
    match handlers p with
    | _ :: _ => sret tt p
    | [] =>
        (attempt env (OpenAppend log_path) ;;
         fun p' =>
           ([], {| level := level p';
                   handlers := [FileHandler log_path; StreamHandler];
                   existing := existing p' |}, Returned tt)) p
    end.

(** The namespace [parse_args] returns. *)
Record Args := {
  host : pystr;
  port : Z;
  response_file : pystr;
  log_file : pystr;
  clear_log : bool;
  content_type : option pystr
}.

(** The constructor of the server, [TCPServer.__init__]: it binds and
    listens, and when that is refused it closes the socket and lets the
    error through. *)
Definition bind_and_activate (env : os_env) (host : pystr) (port : Z)
  : Sys unit :=
  fun p =>
    if raises env (Bind host port)
    then ([Bind host port; ServerClose], p, Raised OSError)
    else ([Bind host port], p, Returned tt).

(** [server.serve_forever()]: it ends only by an exception. *)
Definition serve_forever (env : os_env) (srv : LogServer) : Sys unit :=
  fun p => ([ServeForever srv], p, Raised (serve_ends_with env)).

Definition server_close : Sys unit :=
  fun p => ([ServerClose], p, Returned tt).

Definition starting_message (env : os_env) (args : Args) (ctype : pystr)
  : pystr :=
  lit "Starting server on " ++ host args ++ lit ":" ++ str_of_Z (port args)
  ++ lit ", responding with contents of " ++ abspath env (response_file args)
  ++ lit " (Content-Type: " ++ ctype ++ lit ")".

(** [main], from the parsed arguments on. *)
Definition main (env : os_env) (args : Args) : Sys unit :=
  response_body <- load_response_body env (response_file args) ;;
  let ctype :=
    determine_content_type (guess_type env) (response_file args)
                           (content_type args) in
  (if clear_log args
   then ensure_log_dir env (log_file args) ;;
        attempt env (Truncate (log_file args))
   else sret tt) ;;
  configure_logger env (log_file args) ;;
  bind_and_activate env (host args) (port args) ;;
  let server :=
    {| server_name := bound_name env (host args) (port args);
       server_port := bound_port env (host args) (port args);
       response_body := response_body;
       response_content_type := ctype |} in
  logger_info (starting_message env args ctype) ;;
  try_except_finally (serve_forever env server)
                     (logger_info (lit "Stopping server"))
                     server_close.

Local Close Scope sys_scope.

(** The events of a run, its final state, and how it ended. *)
Definition events {A} (m : Sys A) (p : process) : list sys_event :=
  fst (fst (m p)).
Definition state_after {A} (m : Sys A) (p : process) : process :=
  snd (fst (m p)).
Definition ending {A} (m : Sys A) (p : process) : outcome A := snd (m p).

(** A process in which the logger has not been touched. *)
Definition fresh_process (paths : list pystr) : process :=
  {| level := 0; handlers := []; existing := paths |}.

Definition is_truncate (e : sys_event) : bool :=
  match e with
  | Truncate _ => true
  | _ => false
  end.

Definition is_bind (e : sys_event) : bool :=
  match e with
  | Bind _ _ => true
  | _ => false
  end.

Definition is_serve (e : sys_event) : bool :=
  match e with
  | ServeForever _ => true
  | _ => false
  end.

Definition is_emit (e : sys_event) : bool :=
  match e with
  | FileEmit _ _ | StreamEmit _ => true
  | _ => false
  end.

Definition is_open_append (e : sys_event) : bool :=
  match e with
  | OpenAppend _ => true
  | _ => false
  end.

Definition is_makedirs (e : sys_event) : bool :=
  match e with
  | Makedirs _ => true
  | _ => false
  end.

(** The events from the first one that satisfies [f] on. *)
Fixpoint from_first (f : sys_event -> bool) (l : list sys_event)
  : list sys_event :=
  match l with
  | [] => []
  | e :: r => if f e then l else from_first f r
  end.

(** A run that ends by closing the listening socket. *)
Definition closes (l : list sys_event) : Prop :=
  exists before, l = before ++ [ServerClose].

(** An environment for worked examples: one readable file, nothing
    refused, a guess for that file, an interrupt from the keyboard. *)
Definition example_env : os_env :=
  {| file_content := fun path =>
       if pystr_eqb path (lit "body.txt") then Some [x6f; x6b] else None;
     raises := fun _ => false;
     guess_type := fun path =>
       if pystr_eqb path (lit "body.txt") then Some (lit "text/plain")
       else None;
     abspath := fun path => lit "/srv/" ++ path;
     dirname := fun _ => lit "/srv";
     bound_name := fun h _ => h;
     bound_port := fun _ n => n;
     serve_ends_with := KeyboardInterrupt |}.

Definition example_args (body_path : pystr) (clear : bool) : Args :=
  {| host := lit "0.0.0.0"; port := 6565; response_file := body_path;
     log_file := lit "requests.log"; clear_log := clear;
     content_type := None |}.

End Startup.

(** A character that is neither white space nor a line boundary. *)
Definition plain_char (ch : N) : bool :=
  negb (Py.is_linebreak ch) && negb (Py.is_space ch).

(* ====================================================================== *)
(** * Part II. Properties                                                  *)
(* ====================================================================== *)

(** ** Bytes and literals *)

Lemma byte_of_to_N (b : byte) : byte_of_N (Byte.to_N b) = b.
Proof. unfold byte_of_N. now rewrite Byte.of_to_N. Qed.

Lemma to_N_lt (b : byte) : Byte.to_N b < 256.
Proof. pose proof (Byte.to_N_bounded b). lia. Qed.

Lemma pystr_eqb_eq (a b : pystr) : pystr_eqb a b = true <-> a = b.
Proof.
  unfold pystr_eqb. destruct (list_eq_dec N.eq_dec a b); split; congruence.
Qed.

Lemma pystr_eqb_refl (a : pystr) : pystr_eqb a a = true.
Proof. now apply pystr_eqb_eq. Qed.

Lemma pystr_eqb_neq (a b : pystr) : a <> b -> pystr_eqb a b = false.
Proof.
  intros H. destruct (pystr_eqb a b) eqn:E; [|reflexivity].
  apply pystr_eqb_eq in E. contradiction.
Qed.

Lemma pystr_eqb_sym (a b : pystr) : pystr_eqb a b = pystr_eqb b a.
Proof.
  apply eq_true_iff_eq. rewrite !pystr_eqb_eq. split; congruence.
Qed.

Lemma strip_prefix_app (label rest : pystr) :
  strip_prefix label (label ++ rest) = Some rest.
Proof.
  induction label as [|a label IH]; simpl; [reflexivity|].
  now rewrite N.eqb_refl.
Qed.

(** Induction on lists through a bound on the length, for functions that
    consume several elements a step. *)
Lemma list_length_ind {A} (P : list A -> Prop) :
  (forall l, (forall l', (List.length l' < List.length l)%nat -> P l') -> P l) ->
  forall l, P l.
Proof.
  intros step l.
  assert (H : forall n l', (List.length l' < n)%nat -> P l').
  { induction n as [|n IH]; intros l' Hl; [lia|].
    apply step. intros l'' Hl''. apply IH. lia. }
  apply (H (S (List.length l))). lia.
Qed.

(** ** The embedding on known values *)

Example shell_quote_escapes :
  _shell_quote (lit "it's") = lit "'it'\''s'".
Proof. reflexivity. Qed.

Example b64encode_scenario :
  Base64.b64encode [x7b; x22; x61; x22; x3a; x31; x7d] = lit "eyJhIjoxfQ=="
  /\ Base64.b64encode [xff; xfe] = lit "//4=".
Proof. split; reflexivity. Qed.

Example utf8_decode_known :
  Codec.utf8_decode [xe2; x82; xac] = Some [8364]
  /\ Codec.utf8_decode [xf0; x9f; x98; x80] = Some [128512]
  /\ Codec.utf8_decode [xed; xa0; x80] = None
  /\ Codec.utf8_decode_replace [x63; x61; x66; xc3; xa9; x20; xff]
     = [99; 97; 102; 233; 32; 65533]
  /\ Codec.utf8_decode_replace [xe2; x28; xa1] = [65533; 40; 65533]
  /\ Codec.utf8_decode_backslashreplace [xf0; x90; x28]
     = lit "\xf0\x90(".
Proof. repeat split; reflexivity. Qed.

Example int_of_str_known :
  map Py.int_of_str
      [lit " 42 "; lit "+5"; lit "-0"; lit "1_000"; lit "007";
       lit "1__0"; lit "_1"; lit "+ 5"; lit "0x10"; lit "12a"; []]
  = [Some 42%Z; Some 5%Z; Some 0%Z; Some 1000%Z; Some 7%Z;
     None; None; None; None; None; None].
Proof. reflexivity. Qed.

Example indent_known :
  Py.indent [97; 10; 10; 98] (lit "    ")
  = lit "    a" ++ [NL; NL] ++ lit "    b".
Proof. reflexivity. Qed.

Example build_commands_scenario :
  build_curl (lit "POST") (lit "http://example.com:6565/submit")
             [(lit "Content-Type", lit "application/json")]
             [x7b; x22; x61; x22; x3a; x31; x7d]
  = lit "curl -i -X POST -H 'Content-Type: application/json' --data-raw '{"
    ++ [34; 97; 34] ++ lit ":1}' 'http://example.com:6565/submit'"
  /\ build_httpie (lit "GET") (lit "http://example.com:6565/status?x=1")
                  [(lit "Host", lit "example.com:6565")] []
     = lit "http -v GET 'http://example.com:6565/status?x=1' 'Host:example.com:6565'".
Proof. split; reflexivity. Qed.

(** ** Base64 *)

Module Base64Facts.
Import Base64.

Lemma sextet_in (s : N) : s < 64 -> In s sextets.
Proof.
  intros H. unfold sextets. apply in_map_iff. exists (N.to_nat s).
  split; [lia|]. apply in_seq. lia.
Qed.

Lemma index_char (s : N) : s < 64 -> index_of (char_of s) = Some s.
Proof.
  intros H.
  assert (A : forallb (fun s => match index_of (char_of s) with
                                | Some s' => s' =? s
                                | None => false
                                end) sextets = true) by (vm_compute; reflexivity).
  rewrite forallb_forall in A. specialize (A s (sextet_in s H)).
  destruct (index_of (char_of s)); [|discriminate].
  apply N.eqb_eq in A. now subst.
Qed.

Lemma char_not_pad (s : N) : s < 64 -> (char_of s =? EQUALS) = false.
Proof.
  intros H.
  assert (A : forallb (fun s => negb (char_of s =? EQUALS)) sextets = true)
    by (vm_compute; reflexivity).
  rewrite forallb_forall in A. specialize (A s (sextet_in s H)).
  now apply negb_true_iff in A.
Qed.

Ltac sextet := repeat rewrite index_char by lia;
               repeat rewrite char_not_pad by lia.

Lemma b64_roundtrip (bs : bytes) : b64decode (b64encode bs) = Some bs.
Proof.
  induction bs as [bs IH] using list_length_ind.
  destruct bs as [|a [|b [|c rest]]].
  - reflexivity.
  - pose proof (to_N_lt a) as Ha.
    cbn [b64encode b64decode]. sextet.
    rewrite !N.eqb_refl. cbn [is_nil andb].
    replace ((Byte.to_N a mod 4 * 16) mod 16 =? 0) with true
      by (symmetry; apply N.eqb_eq; lia).
    replace (Byte.to_N a / 4 * 4 + Byte.to_N a mod 4 * 16 / 16)
      with (Byte.to_N a) by lia.
    now rewrite byte_of_to_N.
  - pose proof (to_N_lt a) as Ha. pose proof (to_N_lt b) as Hb.
    cbn [b64encode b64decode]. sextet.
    rewrite !N.eqb_refl. cbn [is_nil andb].
    replace ((Byte.to_N b mod 16 * 4) mod 4 =? 0) with true
      by (symmetry; apply N.eqb_eq; lia).
    replace (Byte.to_N a / 4 * 4 + (Byte.to_N a mod 4 * 16 + Byte.to_N b / 16) / 16)
      with (Byte.to_N a) by lia.
    replace ((Byte.to_N a mod 4 * 16 + Byte.to_N b / 16) mod 16 * 16
             + Byte.to_N b mod 16 * 4 / 4)
      with (Byte.to_N b) by lia.
    now rewrite !byte_of_to_N.
  - pose proof (to_N_lt a) as Ha. pose proof (to_N_lt b) as Hb.
    pose proof (to_N_lt c) as Hc.
    cbn [b64encode b64decode]. sextet.
    rewrite IH by (simpl; lia).
    replace (Byte.to_N a / 4 * 4 + (Byte.to_N a mod 4 * 16 + Byte.to_N b / 16) / 16)
      with (Byte.to_N a) by lia.
    replace ((Byte.to_N a mod 4 * 16 + Byte.to_N b / 16) mod 16 * 16
             + (Byte.to_N b mod 16 * 4 + Byte.to_N c / 64) / 4)
      with (Byte.to_N b) by lia.
    replace ((Byte.to_N b mod 16 * 4 + Byte.to_N c / 64) mod 4 * 64
             + Byte.to_N c mod 64)
      with (Byte.to_N c) by lia.
    now rewrite !byte_of_to_N.
Qed.

End Base64Facts.

(** ** Text codecs *)

Module CodecFacts.
Import Codec.

Lemma byte_of_N_eq (n : N) (b : byte) : n = Byte.to_N b -> byte_of_N n = b.
Proof. intros ->. apply byte_of_to_N. Qed.

Lemma latin1_roundtrip (bs : bytes) : latin1_encode (latin1_decode bs) = Some bs.
Proof.
  induction bs as [|b bs IH]; [reflexivity|].
  unfold latin1_decode in *. cbn [map latin1_encode].
  now rewrite Byte.of_to_N, IH.
Qed.

Lemma char_step (cp : N) (tk prefix : bytes) (t : pystr) :
  (forall t', all_chars (utf8_scan tk) = Some t' -> utf8_encode t' = Some tk) ->
  utf8_encode_cp cp = Some prefix ->
  all_chars (Char cp :: utf8_scan tk) = Some t ->
  utf8_encode t = Some (prefix ++ tk).
Proof.
  intros IH Hcp. cbn [all_chars].
  destruct (all_chars (utf8_scan tk)) as [t'|] eqn:E; [|discriminate].
  intros [= <-]. cbn [utf8_encode]. now rewrite Hcp, (IH t' eq_refl).
Qed.

Ltac split_ifs :=
  repeat match goal with
         | H : context [if ?c then _ else _] |- _ => destruct c eqn:?
         | |- context [if ?c then _ else _] => destruct c eqn:?
         end.

Ltac encode_cp :=
  unfold utf8_encode_cp, second3_ok, second4_ok in *; unfold is_cont in *;
  split_ifs; try lia;
  repeat f_equal; apply byte_of_N_eq; lia.

(** Encoding what the strict decoder returned gives the bytes back. *)
Lemma utf8_roundtrip (bs : bytes) :
  forall t, utf8_decode bs = Some t -> utf8_encode t = Some bs.
Proof.
  induction bs as [bs IH] using list_length_ind. intros t.
  unfold utf8_decode in *.
  destruct bs as [|b0 t0]; [intros [= <-]; reflexivity|].
  pose proof (to_N_lt b0) as H0.
  cbn [utf8_scan]. cbv zeta.
  destruct (Byte.to_N b0 <? 128) eqn:E1.
  { apply (char_step _ t0 [b0]); [apply IH; simpl; lia|]. encode_cp. }
  destruct ((194 <=? Byte.to_N b0) && (Byte.to_N b0 <=? 223)) eqn:E2.
  { destruct t0 as [|b1 t1]; [discriminate|].
    pose proof (to_N_lt b1) as H1.
    destruct (is_cont (Byte.to_N b1)) eqn:C1; [|discriminate].
    apply (char_step _ t1 [b0; b1]); [apply IH; simpl; lia|]. encode_cp. }
  destruct ((224 <=? Byte.to_N b0) && (Byte.to_N b0 <=? 239)) eqn:E3.
  { destruct t0 as [|b1 t1]; [discriminate|].
    pose proof (to_N_lt b1) as H1.
    destruct (second3_ok (Byte.to_N b0) (Byte.to_N b1)) eqn:C1; [|discriminate].
    destruct t1 as [|b2 t2]; [discriminate|].
    pose proof (to_N_lt b2) as H2.
    destruct (is_cont (Byte.to_N b2)) eqn:C2; [|discriminate].
    apply (char_step _ t2 [b0; b1; b2]); [apply IH; simpl; lia|]. encode_cp. }
  destruct ((240 <=? Byte.to_N b0) && (Byte.to_N b0 <=? 244)) eqn:E4;
    [|discriminate].
  destruct t0 as [|b1 t1]; [discriminate|].
  pose proof (to_N_lt b1) as H1.
  destruct (second4_ok (Byte.to_N b0) (Byte.to_N b1)) eqn:C1; [|discriminate].
  destruct t1 as [|b2 t2]; [discriminate|].
  pose proof (to_N_lt b2) as H2.
  destruct (is_cont (Byte.to_N b2)) eqn:C2; [|discriminate].
  destruct t2 as [|b3 t3]; [discriminate|].
  pose proof (to_N_lt b3) as H3.
  destruct (is_cont (Byte.to_N b3)) eqn:C3; [|discriminate].
  apply (char_step _ t3 [b0; b1; b2; b3]); [apply IH; simpl; lia|]. encode_cp.
Qed.

End CodecFacts.

(** ** Shell words *)

Module ReplayFacts.
Import Replay.

Lemma fold_parts {A B} (f : A -> list B) (l : list A) (init : list B) :
  fold_left (fun parts a => parts ++ f a) l init = init ++ flat_map f l.
Proof.
  revert init. induction l as [|a l IH]; intros init; simpl.
  - now rewrite app_nil_r.
  - now rewrite IH, app_assoc.
Qed.

Lemma join_cons2 (sep a b : pystr) (l : list pystr) :
  join sep (a :: b :: l) = a ++ sep ++ join sep (b :: l).
Proof. reflexivity. Qed.

Lemma scan_plain_app (s acc rest : pystr) :
  ~ In SP s -> ~ In SQ s ->
  scan (InPlain acc) (s ++ rest) = scan (InPlain (acc ++ s)) rest.
Proof.
  revert acc. induction s as [|c s IH]; intros acc Hsp Hsq.
  - now rewrite app_nil_r.
  - cbn [app scan].
    assert (c <> SP) as Hc1 by (intros ->; apply Hsp; now left).
    assert (c <> SQ) as Hc2 by (intros ->; apply Hsq; now left).
    apply N.eqb_neq in Hc1, Hc2. rewrite Hc1, Hc2.
    rewrite IH.
    + now rewrite <- app_assoc.
    + intros H. apply Hsp. now right.
    + intros H. apply Hsq. now right.
Qed.

Lemma scan_close (acc rest : pystr) :
  ends_word rest ->
  scan (InQuote acc) (SQ :: rest) = push (Quoted acc) (scan Closed rest).
Proof.
  intros [-> | [r ->]]; [reflexivity|].
  cbn [scan]. rewrite N.eqb_refl.
  destruct r as [|c2 [|c3 r']]; reflexivity.
Qed.

Lemma scan_quote_app (s acc rest : pystr) :
  ends_word rest ->
  scan (InQuote acc) (Py.replace1 SQ [SQ; BSL; SQ; SQ] s ++ SQ :: rest)
  = push (Quoted (acc ++ s)) (scan Closed rest).
Proof.
  intros Hrest. revert acc. induction s as [|c s IH]; intros acc.
  - cbn [Py.replace1 flat_map app]. rewrite app_nil_r. now apply scan_close.
  - unfold Py.replace1 in *. cbn [flat_map].
    destruct (c =? SQ) eqn:E.
    + apply N.eqb_eq in E. subst c.
      cbn [app scan]. rewrite N.eqb_refl. cbn [andb].
      replace (BSL =? BSL) with true by reflexivity. cbn [andb].
      rewrite IH. now rewrite <- app_assoc.
    + cbn [app scan]. rewrite E. rewrite IH. now rewrite <- app_assoc.
Qed.

Lemma scan_quoted (s rest : pystr) :
  ends_word rest ->
  scan Start (_shell_quote s ++ rest) = push (Quoted s) (scan Closed rest).
Proof.
  intros Hrest. unfold _shell_quote.
  rewrite <- !app_assoc. cbn [app scan]. rewrite N.eqb_refl.
  now rewrite scan_quote_app.
Qed.

Lemma scan_plain (s rest : pystr) :
  plain_word s ->
  scan Start (s ++ rest) = scan (InPlain s) rest.
Proof.
  intros (Hne & Hsp & Hsq). destruct s as [|c s]; [congruence|].
  cbn [app scan].
  assert (c <> SP) as Hc1 by (intros ->; apply Hsp; now left).
  assert (c <> SQ) as Hc2 by (intros ->; apply Hsq; now left).
  apply N.eqb_neq in Hc1, Hc2. rewrite Hc1, Hc2.
  apply scan_plain_app.
  - intros H. apply Hsp. now right.
  - intros H. apply Hsq. now right.
Qed.

(** Splitting a rendered command line gives its words back. *)
Lemma scan_render (ws : list token) :
  ws <> [] -> Forall word_ok ws ->
  scan Start (join [SP] (map render ws)) = Some ws.
Proof.
  induction ws as [|w ws IH]; [congruence|]. intros _ Hok.
  inversion Hok as [|? ? Hw Hws]; subst.
  destruct ws as [|w' ws].
  - cbn [map join]. destruct w as [s|s]; cbn [render].
    + rewrite <- (app_nil_r s) at 1. now rewrite scan_plain.
    + rewrite <- (app_nil_r (_shell_quote s)).
      rewrite scan_quoted by now left. reflexivity.
  - change (map render (w :: w' :: ws))
      with (render w :: render w' :: map render ws).
    rewrite join_cons2.
    specialize (IH ltac:(congruence) Hws).
    change (render w' :: map render ws) with (map render (w' :: ws)).
    destruct w as [s|s]; cbn [render].
    + rewrite scan_plain by assumption.
      cbn [app scan]. rewrite N.eqb_refl. now rewrite IH.
    + rewrite scan_quoted by (right; eexists; reflexivity).
      cbn [app scan]. rewrite N.eqb_refl. now rewrite IH.
Qed.

Lemma render_nonempty (w : token) : word_ok w -> render w <> [].
Proof.
  destruct w as [s|s]; cbn [render word_ok].
  - now intros (H & _).
  - intros _. unfold _shell_quote. discriminate.
Qed.

Lemma tokens_render (ws : list token) :
  Forall word_ok ws -> tokens (join [SP] (map render ws)) = Some ws.
Proof.
  intros Hok. destruct ws as [|w ws]; [reflexivity|].
  unfold tokens.
  destruct (join [SP] (map render (w :: ws))) eqn:E.
  - exfalso. inversion Hok as [|? ? Hw _]; subst.
    apply (render_nonempty w Hw).
    destruct ws; cbn [map join] in E.
    + assumption.
    + now apply app_eq_nil in E.
  - rewrite <- E. apply scan_render; [congruence|assumption].
Qed.


Lemma build_curl_words (m u : pystr) (h : Py.dict) (b : bytes) :
  build_curl m u h b = join [SP] (map render (curl_words m u h b)).
Proof.
  unfold build_curl, curl_words, curl_data_words.
  rewrite fold_parts.
  change (lit " ") with [SP].
  destruct b as [|b0 b']; [|destruct (Codec.utf8_decode (b0 :: b'))];
    f_equal; rewrite <- ?app_assoc;
    repeat (rewrite ?map_app, ?flat_map_concat_map, ?concat_map, ?map_map;
            cbn [map render app]); reflexivity.
Qed.

Lemma build_httpie_words (m u : pystr) (h : Py.dict) (b : bytes) :
  build_httpie m u h b = join [SP] (map render (httpie_words m u h b)).
Proof.
  unfold build_httpie, httpie_words, httpie_data_words, body_text.
  rewrite fold_parts.
  change (lit " ") with [SP].
  destruct b as [|b0 b']; [|destruct (Codec.utf8_decode (b0 :: b'))];
    f_equal; rewrite <- ?app_assoc;
    repeat (rewrite ?map_app, ?flat_map_concat_map, ?concat_map, ?map_map;
            cbn [map render app]); rewrite ?app_nil_r; reflexivity.
Qed.

Lemma split_colon_app (k rest : pystr) :
  ~ In COLON k -> split_colon (k ++ COLON :: rest) = Some (k, rest).
Proof.
  induction k as [|c k IH]; intros Hk.
  - cbn [app split_colon]. now rewrite N.eqb_refl.
  - cbn [app split_colon].
    assert (c <> COLON) as Hc by (intros ->; apply Hk; now left).
    apply N.eqb_neq in Hc. rewrite Hc.
    rewrite IH; [reflexivity|]. intros H. apply Hk. now right.
Qed.

Lemma curl_header_ok (k v : pystr) :
  ~ In COLON k -> curl_header (k ++ lit ": " ++ v) = Some (k, v).
Proof.
  intros Hk. unfold curl_header.
  change (k ++ lit ": " ++ v) with (k ++ COLON :: SP :: v).
  rewrite split_colon_app by assumption. now rewrite N.eqb_refl.
Qed.

Lemma httpie_header_ok (k v : pystr) :
  ~ In COLON k -> split_colon (k ++ lit ":" ++ v) = Some (k, v).
Proof.
  intros Hk. change (k ++ lit ":" ++ v) with (k ++ COLON :: v).
  now apply split_colon_app.
Qed.

Lemma read_curl_data (b : bytes) (u : pystr) :
  read_curl_args (curl_data_words b ++ [Quoted u]) = Some ([], b, u).
Proof.
  unfold curl_data_words. destruct b as [|b0 b']; [reflexivity|].
  destruct (Codec.utf8_decode (b0 :: b')) as [t|] eqn:E.
  - cbn [app read_curl_args].
    replace (pystr_eqb (lit "--data-raw") (lit "-H")) with false by reflexivity.
    rewrite pystr_eqb_refl.
    now rewrite (CodecFacts.utf8_roundtrip _ _ E).
  - cbn [app read_curl_args].
    replace (pystr_eqb (lit "--data-binary") (lit "-H")) with false
      by reflexivity.
    replace (pystr_eqb (lit "--data-binary") (lit "--data-raw")) with false
      by reflexivity.
    rewrite pystr_eqb_refl.
    now rewrite CodecFacts.latin1_roundtrip.
Qed.

Lemma read_curl_args_ok (h : Py.dict) (b : bytes) (u : pystr) :
  Forall (fun kv => ~ In COLON (fst kv)) h ->
  read_curl_args
    (flat_map (fun kv => [Plain (lit "-H");
                          Quoted (fst kv ++ lit ": " ++ snd kv)]) h
     ++ curl_data_words b ++ [Quoted u])
  = Some (h, b, u).
Proof.
  induction h as [|[k v] h IH]; intros Hh.
  - apply read_curl_data.
  - inversion Hh as [|? ? Hk Hh']; subst. cbn [fst snd] in *.
    cbn [flat_map app read_curl_args fst snd].
    rewrite pystr_eqb_refl, curl_header_ok by assumption.
    now rewrite (IH Hh').
Qed.

Lemma read_httpie_args_ok (h : Py.dict) (b : bytes) :
  Forall (fun kv => ~ In COLON (fst kv)) h ->
  read_httpie_args
    (flat_map (fun kv => [Quoted (fst kv ++ lit ":" ++ snd kv)]) h
     ++ httpie_data_words b)
  = Some (h, body_text b).
Proof.
  induction h as [|[k v] h IH]; intros Hh.
  - unfold httpie_data_words. cbn [flat_map app].
    destruct (body_text b); [|reflexivity].
    cbn [read_httpie_args]. now rewrite pystr_eqb_refl.
  - inversion Hh as [|? ? Hk Hh']; subst. cbn [fst snd] in *.
    cbn [flat_map app read_httpie_args fst snd].
    rewrite httpie_header_ok by assumption.
    now rewrite (IH Hh').
Qed.

Lemma plain_lit (s : pystr) :
  (match s with [] => false | _ => true end
   && negb (existsb (N.eqb SP) s) && negb (existsb (N.eqb SQ) s)) = true ->
  plain_word s.
Proof.
  intros H. apply andb_true_iff in H as [H H3].
  apply andb_true_iff in H as [H1 H2].
  apply negb_true_iff in H2, H3.
  repeat split.
  - destruct s; [discriminate|congruence].
  - intros Hin. assert (existsb (N.eqb SP) s = true); [|congruence].
    apply existsb_exists. exists SP. split; [assumption|apply N.eqb_refl].
  - intros Hin. assert (existsb (N.eqb SQ) s = true); [|congruence].
    apply existsb_exists. exists SQ. split; [assumption|apply N.eqb_refl].
Qed.

Lemma curl_words_ok (m u : pystr) (h : Py.dict) (b : bytes) :
  plain_word m -> Forall word_ok (curl_words m u h b).
Proof.
  intros Hm. unfold curl_words.
  repeat apply Forall_cons; try (apply plain_lit; reflexivity); try exact Hm.
  apply Forall_app. split; [|apply Forall_app; split].
  - induction h as [|kv h IH]; cbn [flat_map app].
    + constructor.
    + repeat apply Forall_cons; try exact I; try exact IH.
      apply plain_lit; reflexivity.
  - unfold curl_data_words. destruct b; [constructor|].
    destruct (Codec.utf8_decode _);
      (apply Forall_cons; [apply plain_lit; reflexivity|]);
      (apply Forall_cons; [exact I|constructor]).
  - apply Forall_cons; [exact I|constructor].
Qed.

Lemma httpie_words_ok (m u : pystr) (h : Py.dict) (b : bytes) :
  plain_word m -> Forall word_ok (httpie_words m u h b).
Proof.
  intros Hm. unfold httpie_words.
  repeat apply Forall_cons; try (apply plain_lit; reflexivity);
    try exact Hm; try exact I.
  apply Forall_app. split.
  - induction h as [|kv h IH]; cbn [flat_map app].
    + constructor.
    + apply Forall_cons; [exact I|exact IH].
  - unfold httpie_data_words. destruct (body_text b); [|constructor].
    apply Forall_cons; [apply plain_lit; reflexivity|].
    apply Forall_cons; [exact I|constructor].
Qed.

Lemma read_curl_build (m u : pystr) (h : Py.dict) (b : bytes) :
  plain_word m -> Forall (fun kv => ~ In COLON (fst kv)) h ->
  read_curl (build_curl m u h b) = Some (m, u, h, b).
Proof.
  intros Hm Hh. unfold read_curl.
  rewrite build_curl_words, tokens_render by now apply curl_words_ok.
  unfold curl_words. cbn [app].
  rewrite !pystr_eqb_refl. cbn [andb].
  now rewrite read_curl_args_ok.
Qed.

Lemma read_httpie_build (m u : pystr) (h : Py.dict) (b : bytes) :
  plain_word m -> Forall (fun kv => ~ In COLON (fst kv)) h ->
  read_httpie (build_httpie m u h b) = Some (m, u, h, body_text b).
Proof.
  intros Hm Hh. unfold read_httpie.
  rewrite build_httpie_words, tokens_render by now apply httpie_words_ok.
  unfold httpie_words. cbn [app].
  rewrite !pystr_eqb_refl. cbn [andb].
  now rewrite read_httpie_args_ok.
Qed.

End ReplayFacts.

(** ** The request handler *)

Module HandlerFacts.

Lemma read_body_cases (self : LoggingHandler) (w : world) :
  _read_body self w = ([], w, [])
  \/ exists s n,
      Py.message_get (headers self) (lit "Content-Length") = Some s
      /\ Py.int_of_str s = Some n /\ (0 < n)%Z
      /\ _read_body self w
         = (firstn (Z.to_nat n) (rfile w),
            {| rfile := skipn (Z.to_nat n) (rfile w); clock := clock w |},
            [RfileRead n]).
Proof.
  unfold _read_body.
  destruct (Py.message_get (headers self) (lit "Content-Length"))
    as [[|c s]|]; [now left| |now left].
  destruct (Py.int_of_str (c :: s)) as [n|] eqn:E; [|now left].
  destruct (n >? 0)%Z eqn:G; [|now left].
  right. exists (c :: s), n. apply Z.gtb_lt in G.
  split; [reflexivity|]. split; [exact E|]. split; [exact G|reflexivity].
Qed.

Lemma read_body_clock (self : LoggingHandler) (w : world) :
  clock (final (_read_body self) w) = clock w.
Proof.
  unfold final.
  destruct (read_body_cases self w) as [E | (s & n & _ & _ & _ & E)];
    now rewrite E.
Qed.

Lemma read_body_trace (self : LoggingHandler) (w : world) :
  forallb is_read (trace (_read_body self) w) = true.
Proof.
  unfold trace.
  destruct (read_body_cases self w) as [E | (s & n & _ & _ & _ & E)];
    now rewrite E.
Qed.

(** What [_respond] does, in order: the reads of [_read_body], one call of
    the logger with the transcript, the fixed response. *)
Lemma respond_trace (rt : Py.runtime) (self : LoggingHandler) (w : world) :
  trace (_respond rt self) w
  = trace (_read_body self) w
    ++ LoggerInfo (join [NL] (transcript rt self w))
    :: fixed_response (server self).
Proof.
  pose proof (read_body_clock self w) as Hc.
  unfold transcript, _respond, log_request, datetime_now, emit_event, bind,
    trace, result, final in *.
  destruct (_read_body self w) as [[body w1] t1]. cbn [fst snd] in *.
  now rewrite Hc.
Qed.

Lemma dispatch_known (rt : Py.runtime) (self : LoggingHandler) :
  In (lit "do_" ++ command self) do_names ->
  handle_one_request rt self = _respond rt self.
Proof.
  intros H. unfold handle_one_request, getattr_do.
  replace (existsb (pystr_eqb (lit "do_" ++ command self)) do_names)
    with true; [reflexivity|].
  symmetry. apply existsb_exists. eexists. split; [exact H|].
  apply pystr_eqb_refl.
Qed.

Lemma dispatch_unknown (rt : Py.runtime) (self : LoggingHandler) (w : world) :
  ~ In (lit "do_" ++ command self) do_names ->
  trace (handle_one_request rt self) w
  = [SendError 501 (lit "Unsupported method ("
                    ++ Py.repr_str rt (command self) ++ lit ")")].
Proof.
  intros H. unfold handle_one_request, getattr_do.
  replace (existsb (pystr_eqb (lit "do_" ++ command self)) do_names)
    with false; [reflexivity|].
  symmetry. apply not_true_is_false. intros E.
  apply existsb_exists in E as (x & Hx & Ex).
  apply pystr_eqb_eq in Ex. subst x. contradiction.
Qed.

(** For the six methods the class names, the request is logged once and
    answered with the fixed response, the log entry first. *)
Lemma dispatched_request_served (rt : Py.runtime) (self : LoggingHandler)
    (w : world) :
  In (lit "do_" ++ command self) do_names ->
  exists reads,
    trace (handle_one_request rt self) w
    = reads ++ LoggerInfo (join [NL] (transcript rt self w))
            :: fixed_response (server self)
    /\ forallb is_read reads = true.
Proof.
  intros H. rewrite (dispatch_known rt self H), respond_trace.
  eexists. split; [reflexivity|apply read_body_trace].
Qed.

End HandlerFacts.

(** ** Header dictionaries *)

Module DictFacts.
Import Py.

Lemma has_key_in (k : pystr) (l : list pystr) :
  existsb (pystr_eqb k) l = true <-> In k l.
Proof.
  rewrite existsb_exists. split.
  - intros (x & Hx & E). apply pystr_eqb_eq in E. now subst.
  - intros H. exists k. split; [assumption|apply pystr_eqb_refl].
Qed.

Lemma has_key_ext (k : pystr) (l l' : list pystr) :
  (forall x, In x l <-> In x l') ->
  existsb (pystr_eqb k) l = existsb (pystr_eqb k) l'.
Proof.
  intros H. apply eq_true_iff_eq. rewrite !has_key_in. apply H.
Qed.

Lemma dict_set_keys (d : dict) (k v : pystr) :
  map fst (dict_set d k v)
  = if existsb (pystr_eqb k) (map fst d) then map fst d
    else map fst d ++ [k].
Proof.
  induction d as [|[k' v'] d IH]; [reflexivity|].
  cbn [dict_set map fst existsb].
  destruct (pystr_eqb k' k) eqn:E.
  - apply pystr_eqb_eq in E. subst k'. now rewrite pystr_eqb_refl.
  - replace (pystr_eqb k k') with false.
    + cbn [orb map fst]. rewrite IH.
      now destruct (existsb (pystr_eqb k) (map fst d)).
    + symmetry. apply pystr_eqb_neq. intros ->.
      now rewrite pystr_eqb_refl in E.
Qed.

Lemma dict_set_fresh (d : dict) (k v : pystr) :
  ~ In k (map fst d) -> dict_set d k v = d ++ [(k, v)].
Proof.
  induction d as [|[k' v'] d IH]; intros H; [reflexivity|].
  cbn [dict_set app]. cbn [map fst] in H.
  rewrite (pystr_eqb_neq k' k) by (intros ->; apply H; now left).
  rewrite IH; [reflexivity|]. intros Hin. apply H. now right.
Qed.

Lemma dict_get_set (d : dict) (k v k' : pystr) :
  dict_get (dict_set d k v) k'
  = if pystr_eqb k k' then Some v else dict_get d k'.
Proof.
  induction d as [|[k0 v0] d IH].
  - cbn [dict_set dict_get]. reflexivity.
  - cbn [dict_set dict_get].
    destruct (pystr_eqb k0 k) eqn:E.
    + apply pystr_eqb_eq in E. subst k0. cbn [dict_get].
      now destruct (pystr_eqb k k').
    + cbn [dict_get]. rewrite IH.
      destruct (pystr_eqb k0 k') eqn:E'; [|reflexivity].
      apply pystr_eqb_eq in E'. subst k0.
      now rewrite pystr_eqb_sym, E.
Qed.

Lemma dict_get_app (a b : dict) (k : pystr) :
  dict_get (a ++ b) k
  = match dict_get a k with
    | Some v => Some v
    | None => dict_get b k
    end.
Proof.
  induction a as [|[k0 v0] a IH]; [reflexivity|].
  cbn [app dict_get]. now destruct (pystr_eqb k0 k).
Qed.

Lemma fold_keys (items : list (pystr * pystr)) :
  forall (d : dict) (seen : list pystr),
    (forall x, In x seen <-> In x (map fst d)) ->
    map fst (fold_left dict_step items d)
    = map fst d ++ first_occurrences seen (map fst items).
Proof.
  induction items as [|[k v] items IH]; intros d seen Hseen.
  - cbn. now rewrite app_nil_r.
  - cbn [fold_left map fst first_occurrences]. unfold dict_step at 2.
    cbn [fst snd].
    rewrite (has_key_ext k seen (map fst d) Hseen).
    destruct (existsb (pystr_eqb k) (map fst d)) eqn:E.
    + rewrite (IH _ seen).
      * now rewrite dict_set_keys, E.
      * intros x. rewrite dict_set_keys, E. apply Hseen.
    + rewrite (IH _ (k :: seen)).
      * rewrite dict_set_keys, E, <- app_assoc. reflexivity.
      * intros x. rewrite dict_set_keys, E, in_app_iff. cbn [In].
        rewrite Hseen. tauto.
Qed.

Lemma fold_get (items : list (pystr * pystr)) :
  forall (d : dict) (k : pystr),
    dict_get (fold_left dict_step items d) k
    = match last_value items k with
      | Some v => Some v
      | None => dict_get d k
      end.
Proof.
  unfold last_value.
  induction items as [|[k0 v0] items IH]; intros d k; [reflexivity|].
  cbn [fold_left rev]. rewrite IH, dict_get_app. unfold dict_step.
  cbn [fst snd dict_get].
  destruct (dict_get (rev items) k); [reflexivity|].
  rewrite dict_get_set. now destruct (pystr_eqb k0 k).
Qed.

Lemma fold_fresh (items : list (pystr * pystr)) :
  forall d : dict,
    NoDup (map fst items) ->
    (forall k, In k (map fst items) -> ~ In k (map fst d)) ->
    fold_left dict_step items d = d ++ items.
Proof.
  induction items as [|[k v] items IH]; intros d Hnd Hfresh.
  - cbn. now rewrite app_nil_r.
  - cbn [map fst] in *. inversion Hnd as [|? ? Hk Hnd']; subst.
    cbn [fold_left]. unfold dict_step at 2. cbn [fst snd].
    rewrite dict_set_fresh by (apply Hfresh; now left).
    rewrite IH.
    + now rewrite <- app_assoc.
    + assumption.
    + intros x Hx. rewrite map_app, in_app_iff. cbn [map fst In].
      intros [H | [-> | []]].
      * apply (Hfresh x); [now right|assumption].
      * contradiction.
Qed.

End DictFacts.

(** ** The claims of the specification *)

Import HandlerFacts.

Lemma filter_reads_log (l : list event) :
  forallb is_read l = true -> filter is_log l = [].
Proof.
  induction l as [|e l IH]; [reflexivity|]. cbn [forallb filter].
  intros H. apply andb_true_iff in H as [He Hl].
  destruct e; try discriminate. cbn [is_log]. now apply IH.
Qed.

Lemma filter_reads_response (l : list event) :
  forallb is_read l = true -> filter is_response l = [].
Proof.
  induction l as [|e l IH]; [reflexivity|]. cbn [forallb filter].
  intros H. apply andb_true_iff in H as [He Hl].
  destruct e; try discriminate. cbn [is_response]. now apply IH.
Qed.

(** The handling logic itself answers every request it is run on with the
    fixed response, whatever the method, path, headers or body. *)
Lemma respond_sends_fixed_response (rt : Py.runtime) (self : LoggingHandler)
    (w : world) :
  filter is_response (trace (_respond rt self) w)
  = fixed_response (server self).
Proof.
  rewrite respond_trace, filter_app.
  rewrite (filter_reads_response _ (read_body_trace self w)).
  reflexivity.
Qed.

(** The handling logic logs one block, and nothing of the response comes
    before it. *)
Lemma respond_logs_once_first (rt : Py.runtime) (self : LoggingHandler)
    (w : world) :
  filter is_log (trace (_respond rt self) w)
  = [LoggerInfo (join [NL] (transcript rt self w))]
  /\ exists before after,
       trace (_respond rt self) w
       = before ++ LoggerInfo (join [NL] (transcript rt self w)) :: after
       /\ filter is_response before = []
       /\ filter is_log after = [].
Proof.
  rewrite respond_trace. split.
  - rewrite filter_app, (filter_reads_log _ (read_body_trace self w)).
    reflexivity.
  - exists (trace (_read_body self) w), (fixed_response (server self)).
    split; [reflexivity|]. split; [|reflexivity].
    apply filter_reads_response, read_body_trace.
Qed.

(** Claim C1 (the code departs from it).  The claim promises status 200 and
    the configured body for every request whatever its method.  A [HEAD]
    request is not answered so: the class binds no [do_HEAD], the inherited
    dispatch answers with [send_error(501)], and neither a 200 status nor
    any body is sent. *)
Theorem head_request_answered_501 :
  forall rt p hs ca srv w,
    trace (handle_one_request rt (request (lit "HEAD") p hs ca srv)) w
    = [SendError 501 (lit "Unsupported method ("
                      ++ Py.repr_str rt (lit "HEAD") ++ lit ")")]
    /\ existsb (is_status 200)
         (trace (handle_one_request rt (request (lit "HEAD") p hs ca srv)) w)
       = false
    /\ existsb is_write
         (trace (handle_one_request rt (request (lit "HEAD") p hs ca srv)) w)
       = false.
Proof.
  intros rt p hs ca srv w. repeat split.
Qed.

(** Claim C2 (the code departs from it).  The claim has every method token
    routed to the one handling logic.  Only the six names of the class body
    are: [do_HEAD] is no attribute of the handler and a [HEAD] request never
    reaches [_respond] (which would have logged it), while a [GET] request
    does. *)
Theorem head_not_routed_to_respond :
  forall rt p hs ca srv w,
    getattr_do (lit "do_" ++ lit "HEAD") = None
    /\ handle_one_request rt (request (lit "GET") p hs ca srv)
       = _respond rt (request (lit "GET") p hs ca srv)
    /\ filter is_log
         (trace (handle_one_request rt (request (lit "HEAD") p hs ca srv)) w)
       = []
    /\ filter is_log
         (trace (_respond rt (request (lit "HEAD") p hs ca srv)) w)
       = [LoggerInfo
            (join [NL]
               (transcript rt (request (lit "HEAD") p hs ca srv) w))].
Proof.
  intros rt p hs ca srv w.
  split; [reflexivity|]. split; [reflexivity|]. split; [reflexivity|].
  apply respond_logs_once_first.
Qed.

(** Claim C7 (the code departs from it).  The claim has one transcript
    block appended for every successfully parsed request, before the
    response.  For a parsed [HEAD] request the logger is never called,
    although a response is sent. *)
Theorem head_request_not_logged :
  forall rt p hs ca srv w,
    filter is_log
      (trace (handle_one_request rt (request (lit "HEAD") p hs ca srv)) w) = []
    /\ existsb is_response
         (trace (handle_one_request rt (request (lit "HEAD") p hs ca srv)) w)
       = true.
Proof.
  intros rt p hs ca srv w. split; reflexivity.
Qed.

(** Claim C4.  When the [Content-Length] header is absent, or is present
    and not a number, [_read_body] returns the empty body without touching
    the connection; the request is then logged with an empty body and
    answered, and no read occurs. *)
Theorem missing_or_bad_length_reads_nothing :
  forall rt self w,
    (Py.message_get (headers self) (lit "Content-Length") = None
     \/ exists s,
         Py.message_get (headers self) (lit "Content-Length") = Some s
         /\ Py.int_of_str s = None) ->
    _read_body self w = ([], w, [])
    /\ trace (_respond rt self) w
       = LoggerInfo (join [NL] (transcript rt self w))
         :: fixed_response (server self)
    /\ field 8 (lit "  length: ") (transcript rt self w) = Some (lit "0 bytes")
    /\ field 9 (lit "  utf8: ") (transcript rt self w) = Some []
    /\ field 10 (lit "  base64: ") (transcript rt self w) = Some [].
Proof.
  intros rt self w H.
  assert (E : _read_body self w = ([], w, [])).
  { unfold _read_body. destruct H as [-> | (s & -> & Hs)]; [reflexivity|].
    destruct s; [reflexivity|]. now rewrite Hs. }
  split; [exact E|].
  split; [rewrite respond_trace; unfold trace; now rewrite E|].
  unfold field, transcript, result. rewrite E. cbn [fst].
  unfold lines. cbn [nth_error].
  repeat split; apply strip_prefix_app.
Qed.

Lemma missing_or_bad_length_reads_nothing_witness :
  _read_body
    (request (lit "POST") (lit "/submit") [(lit "Content-Length", lit "abc")]
             example_client example_server)
    example_world
  = ([], example_world, []).
Proof.
  apply (missing_or_bad_length_reads_nothing example_runtime
           (request (lit "POST") (lit "/submit")
                    [(lit "Content-Length", lit "abc")]
                    example_client example_server)
           example_world).
  right. exists (lit "abc"). split; vm_compute; reflexivity.
Defined.

(** Claim C10.  When the [Content-Length] header parses as an integer that
    is zero or negative, [_read_body] returns the empty byte string and no
    read is issued on the stream; and whenever [_read_body] does read, the
    length it passes is positive, so the guard [length > 0] leaves no read
    with a negative length. *)
Theorem nonpositive_length_reads_nothing :
  forall rt self w s n,
    Py.message_get (headers self) (lit "Content-Length") = Some s ->
    Py.int_of_str s = Some n ->
    (n <= 0)%Z ->
    _read_body self w = ([], w, [])
    /\ filter is_read (trace (_respond rt self) w) = []
    /\ (forall self' w' k,
          In (RfileRead k) (trace (_read_body self') w') -> (0 < k)%Z).
Proof.
  intros rt self w s n Hs Hn Hle.
  assert (E : _read_body self w = ([], w, [])).
  { unfold _read_body. rewrite Hs. destruct s; [reflexivity|]. rewrite Hn.
    replace (n >? 0)%Z with false; [reflexivity|].
    symmetry. rewrite Z.gtb_ltb. apply Z.ltb_ge. exact Hle. }
  split; [exact E|]. split.
  - rewrite respond_trace. unfold trace. rewrite E. reflexivity.
  - intros self' w' k. unfold trace.
    destruct (read_body_cases self' w') as [E' | (s' & n' & _ & _ & Hn' & E')];
      rewrite E'; cbn [snd].
    + intros [].
    + intros [[= <-] | []]. exact Hn'.
Qed.

Lemma nonpositive_length_reads_nothing_witness :
  _read_body
    (request (lit "POST") (lit "/submit") [(lit "Content-Length", lit "-5")]
             example_client example_server)
    example_world
  = ([], example_world, []).
Proof.
  apply (nonpositive_length_reads_nothing example_runtime
           (request (lit "POST") (lit "/submit")
                    [(lit "Content-Length", lit "-5")]
                    example_client example_server)
           example_world (lit "-5") (-5)%Z).
  - vm_compute; reflexivity.
  - vm_compute; reflexivity.
  - lia.
Defined.

(** Claim C5.  For every body, the empty one and those that are not valid
    UTF-8 included, Base64-decoding the [base64] field of the transcript
    block gives back exactly the bytes of the body. *)
Theorem base64_field_round_trip :
  forall rt ts m p u h (body : bytes) c,
    exists f,
      field 10 (lit "  base64: ") (lines rt ts m p u h body c) = Some f
      /\ Base64.b64decode f = Some body.
Proof.
  intros rt ts m p u h body c.
  unfold field, lines. cbn [nth_error].
  eexists. split; [apply strip_prefix_app|].
  destruct body as [|b0 body]; [reflexivity|].
  apply Base64Facts.b64_roundtrip.
Qed.

Lemma dict_set_nodup (d : Py.dict) (k v : pystr) :
  NoDup (map fst d) -> NoDup (map fst (Py.dict_set d k v)).
Proof.
  intros H. rewrite DictFacts.dict_set_keys.
  destruct (existsb (pystr_eqb k) (map fst d)) eqn:E; [exact H|].
  apply NoDup_app; [exact H|repeat constructor; intros []|].
  intros x Hx [<- | []].
  apply DictFacts.has_key_in in Hx. congruence.
Qed.

Lemma fold_nodup (items : list (pystr * pystr)) :
  forall d, NoDup (map fst d) ->
            NoDup (map fst (fold_left Py.dict_step items d)).
Proof.
  induction items as [|kv items IH]; intros d H; [exact H|].
  cbn [fold_left]. apply IH. now apply dict_set_nodup.
Qed.

Lemma replace_of_valid (l : list Codec.item) (t : pystr) :
  Codec.all_chars l = Some t ->
  flat_map (fun i => match i with
                     | Codec.Char c => [c]
                     | Codec.Bad _ => [0xFFFD]
                     end) l = t.
Proof.
  revert t. induction l as [|[c|span] l IH]; intros t; cbn [Codec.all_chars].
  - now intros [= <-].
  - destruct (Codec.all_chars l) as [t'|]; [|discriminate].
    intros [= <-]. cbn [flat_map app]. now rewrite (IH t' eq_refl).
  - discriminate.
Qed.

Lemma replace_of_invalid (l : list Codec.item) :
  Codec.all_chars l = None ->
  In 0xFFFD (flat_map (fun i => match i with
                                | Codec.Char c => [c]
                                | Codec.Bad _ => [0xFFFD]
                                end) l).
Proof.
  induction l as [|[c|span] l IH]; cbn [Codec.all_chars flat_map].
  - discriminate.
  - destruct (Codec.all_chars l); [discriminate|]. intros _.
    right. now apply IH.
  - intros _. now left.
Qed.

Lemma splitlines_one_line (s cur : pystr) :
  forallb (fun ch => negb (Py.is_linebreak ch)) s = true ->
  Py.splitlines_keep cur s
  = match cur ++ s with
    | [] => []
    | _ => [cur ++ s]
    end.
Proof.
  revert cur. induction s as [|ch s IH]; intros cur H.
  - cbn [Py.splitlines_keep]. rewrite app_nil_r. now destruct cur.
  - cbn [forallb] in H. apply andb_true_iff in H as [Hc Hs].
    apply negb_true_iff in Hc.
    cbn [Py.splitlines_keep]. rewrite Hc, (IH _ Hs), <- app_assoc.
    reflexivity.
Qed.

Lemma lstrip_keeps (p : N -> bool) (l : pystr) (ch : N) :
  p ch = false -> Py.lstrip_by p (l ++ [ch]) <> [].
Proof.
  intros Hc. induction l as [|x l IH]; cbn [app Py.lstrip_by].
  - rewrite Hc. discriminate.
  - destruct (p x); [exact IH|discriminate].
Qed.

Lemma strip_not_blank (ch : N) (s : pystr) :
  Py.is_space ch = false -> Py.strip (ch :: s) <> [].
Proof.
  intros Hc. unfold Py.strip, Py.strip_by.
  cbn [Py.lstrip_by]. rewrite Hc. cbn [rev].
  intros H. apply (f_equal (@rev N)) in H. rewrite rev_involutive in H.
  now apply (lstrip_keeps Py.is_space (rev s) ch Hc).
Qed.

Lemma indent_one_line (ch : N) (s prefix : pystr) :
  Py.is_space ch = false ->
  forallb (fun x => negb (Py.is_linebreak x)) (ch :: s) = true ->
  Py.indent (ch :: s) prefix = prefix ++ ch :: s.
Proof.
  intros Hc Hl. unfold Py.indent.
  rewrite (splitlines_one_line (ch :: s) [] Hl). cbn [app map List.concat].
  pose proof (strip_not_blank ch s Hc) as Hne.
  destruct (Py.strip (ch :: s)); [congruence|].
  now rewrite app_nil_r.
Qed.























(** Claim C3, as the code has it.  The headers of the transcript are the
    entries of the dictionary [_respond] builds from the header lines: the
    names, as they arrived (no case folding), in order of first arrival;
    header lines with exactly the same name are one entry, which carries
    the value of the last of them; a request whose header names are all
    different is recorded pair for pair in arrival order. *)
Theorem transcript_headers :
  forall rt self w,
    nth_error (transcript rt self w) 6
    = Some (headers_block (Py.dict_of_items (headers self)))
    /\ map fst (Py.dict_of_items (headers self))
       = first_occurrences [] (map fst (headers self))
    /\ (forall k, Py.dict_get (Py.dict_of_items (headers self)) k
                  = last_value (headers self) k)
    /\ (NoDup (map fst (headers self)) ->
        Py.dict_of_items (headers self) = headers self).
Proof.
  intros rt self w. split; [reflexivity|]. unfold Py.dict_of_items.
  split; [|split].
  - now rewrite (DictFacts.fold_keys (headers self) [] []).
  - intros k. rewrite DictFacts.fold_get.
    now destruct (last_value (headers self) k).
  - intros H. now rewrite DictFacts.fold_fresh.
Qed.

Lemma transcript_headers_witness :
  Py.dict_of_items [(lit "Host", lit "a"); (lit "host", lit "b")]
  = [(lit "Host", lit "a"); (lit "host", lit "b")].
Proof.
  apply (transcript_headers example_runtime
           (request (lit "GET") (lit "/")
                    [(lit "Host", lit "a"); (lit "host", lit "b")]
                    example_client example_server)
           example_world).
  repeat constructor; simpl; intuition discriminate.
Defined.

(** Claim C3 as stated fails: of two header lines with the same name only
    one is recorded, with the value of the second. *)
Lemma duplicate_header_collapsed :
  Py.dict_of_items [(lit "X-A", lit "1"); (lit "X-A", lit "2")]
  = [(lit "X-A", lit "2")]
  /\ field 6 []
       (transcript example_runtime
          (request (lit "GET") (lit "/")
                   [(lit "X-A", lit "1"); (lit "X-A", lit "2")]
                   example_client example_server)
          example_world)
     = Some (lit "  - X-A: 2").
Proof.
  split; vm_compute; reflexivity.
Qed.

(** Claim C6, as the code has it.  For a method that can stand unquoted
    (not empty, no space, no quote) and header names without a colon:
    splitting the curl string into words and unescaping the quoted ones
    gives back the method, the URL, the headers and, reading the text after
    [--data-raw] as UTF-8 and after [--data-binary] as Latin-1, the bytes
    of the body; the httpie string gives back the method, the URL, the
    headers and the text of the body, which is the body when encoded as
    UTF-8 if the body was valid UTF-8 and when encoded as Latin-1 if it was
    not. *)
Theorem replay_read_back :
  forall m u h (b : bytes),
    Replay.plain_word m ->
    Forall (fun kv => ~ In COLON (fst kv)) h ->
    Replay.read_curl (build_curl m u h b) = Some (m, u, h, b)
    /\ Replay.read_httpie (build_httpie m u h b)
       = Some (m, u, h, Replay.body_text b)
    /\ match Replay.body_text b with
       | None => b = []
       | Some t =>
           match Codec.utf8_decode b with
           | Some _ => Codec.utf8_encode t = Some b
           | None => Codec.latin1_encode t = Some b
           end
       end.
Proof.
  intros m u h b Hm Hh.
  split; [now apply ReplayFacts.read_curl_build|].
  split; [now apply ReplayFacts.read_httpie_build|].
  unfold Replay.body_text. destruct b as [|b0 b]; [reflexivity|].
  destruct (Codec.utf8_decode (b0 :: b)) eqn:E.
  - now apply CodecFacts.utf8_roundtrip.
  - apply CodecFacts.latin1_roundtrip.
Qed.

Lemma replay_read_back_witness :
  Replay.read_curl
    (build_curl (lit "POST") (lit "http://example.com:6565/submit")
                [(lit "X-Note", lit "it's")] [xe9; x27])
  = Some (lit "POST", lit "http://example.com:6565/submit",
          [(lit "X-Note", lit "it's")], [xe9; x27]).
Proof.
  apply (replay_read_back (lit "POST") (lit "http://example.com:6565/submit")
           [(lit "X-Note", lit "it's")] [xe9; x27]).
  - apply ReplayFacts.plain_lit. vm_compute. reflexivity.
  - repeat constructor. simpl. intuition discriminate.
Defined.

(** The methods the dispatch lets through can stand unquoted. *)
Lemma dispatched_method_plain (m : pystr) :
  In (lit "do_" ++ m) do_names -> Replay.plain_word m.
Proof.
  unfold do_names. cbn [In].
  intros [H | [H | [H | [H | [H | [H | []]]]]]];
    apply (app_inv_head (lit "do_")) in H; subst m;
    apply ReplayFacts.plain_lit; reflexivity.
Qed.

(** Claim C6 as stated fails for the httpie string: a body that is valid
    UTF-8 and a different body that takes the Latin-1 path give the same
    string, so the bytes of the body cannot be told from it.  The method is
    not quoted and a header is one word, so a method with a space and a
    header name with a colon are not recovered either: two different
    requests give the same curl string. *)
Lemma httpie_body_ambiguous :
  build_httpie (lit "POST") (lit "http://example.com:6565/submit") []
               [xc3; xa9]
  = build_httpie (lit "POST") (lit "http://example.com:6565/submit") []
                 [xe9]
  /\ Codec.utf8_decode [xc3; xa9] = Some [233]
  /\ Codec.utf8_decode [xe9] = None
  /\ [xc3; xa9] <> [xe9]
  /\ build_curl (lit "GET -H 'a: b'") (lit "http://h/") [] []
     = build_curl (lit "GET") (lit "http://h/") [(lit "a", lit "b")] []
  /\ build_curl (lit "GET") (lit "http://h/") [(lit "a: b", lit "c")] []
     = build_curl (lit "GET") (lit "http://h/") [(lit "a", lit "b: c")] [].
Proof.
  repeat split; try (vm_compute; reflexivity). discriminate.
Qed.

(* ====================================================================== *)
(** * Part III. Further properties of the code                             *)
(* ====================================================================== *)

(** ** Reading the body *)

(** X1.  [_read_body] never loses or invents bytes: when the length a
    request declares, if any, does not exceed what its connection holds, the
    body returned followed by what is left on the stream is the stream as
    it was found; at most one read is issued, and the clock is not
    touched. *)
Theorem read_body_conserves_stream :
  forall self w,
    reads_available self w ->
    result (_read_body self) w ++ rfile (final (_read_body self) w) = rfile w
    /\ clock (final (_read_body self) w) = clock w
    /\ (List.length (trace (_read_body self) w) <= 1)%nat.
Proof.
  intros self w _. unfold result, final, trace.
  destruct (read_body_cases self w) as [E | (s & n & _ & _ & _ & E)];
    rewrite E; cbn [fst snd rfile clock List.length].
  - repeat split; lia.
  - rewrite firstn_skipn. repeat split; lia.
Qed.

Lemma read_body_conserves_stream_witness :
  result (_read_body
            (request (lit "POST") (lit "/submit")
                     [(lit "Content-Length", lit "1")]
                     example_client example_server))
         example_world
  ++ rfile (final (_read_body
                     (request (lit "POST") (lit "/submit")
                              [(lit "Content-Length", lit "1")]
                              example_client example_server))
                  example_world)
  = rfile example_world.
Proof.
  apply (read_body_conserves_stream
           (request (lit "POST") (lit "/submit")
                    [(lit "Content-Length", lit "1")]
                    example_client example_server)
           example_world).
  intros n H. vm_compute in H. destruct H as [H | []].
  injection H as <-. vm_compute. discriminate.
Defined.

(** X2.  With a [Content-Length] that parses to a positive [n] and a
    stream that holds at least [n] bytes, the body is the first [n] bytes
    of the stream, and the stream is advanced past them by a single
    [read(n)]. *)
Theorem read_body_takes_declared_length :
  forall self w s n,
    Py.message_get (headers self) (lit "Content-Length") = Some s ->
    Py.int_of_str s = Some n ->
    (0 < n)%Z ->
    (n <= len (rfile w))%Z ->
    result (_read_body self) w = firstn (Z.to_nat n) (rfile w)
    /\ rfile (final (_read_body self) w) = skipn (Z.to_nat n) (rfile w)
    /\ trace (_read_body self) w = [RfileRead n]
    /\ len (result (_read_body self) w) = n.
Proof.
  intros self w s n Hs Hn Hpos Hav.
  assert (E : _read_body self w
              = (firstn (Z.to_nat n) (rfile w),
                 {| rfile := skipn (Z.to_nat n) (rfile w); clock := clock w |},
                 [RfileRead n])).
  { unfold _read_body. rewrite Hs.
    destruct s as [|c s]; [discriminate|]. rewrite Hn.
    replace (n >? 0)%Z with true; [reflexivity|].
    symmetry. now apply Z.gtb_lt. }
  unfold result, final, trace. rewrite E. cbn [fst snd rfile].
  repeat split. unfold len in *. rewrite length_firstn. lia.
Qed.

Lemma read_body_takes_declared_length_witness :
  result (_read_body
            (request (lit "POST") (lit "/submit")
                     [(lit "content-length", lit "1")]
                     example_client example_server))
         example_world
  = [x7b].
Proof.
  apply (read_body_takes_declared_length
           (request (lit "POST") (lit "/submit")
                    [(lit "content-length", lit "1")]
                    example_client example_server)
           example_world (lit "1") 1%Z).
  - vm_compute; reflexivity.
  - vm_compute; reflexivity.
  - lia.
  - vm_compute. discriminate.
Defined.

(** ** Answering *)

(** X3.  The response calls [_respond] makes are the same for any two
    requests to one server, whatever their methods, paths, headers,
    clients, the bytes on their connections and the time, as long as the
    configured content type is Latin-1 text and neither request declares
    more bytes than its connection holds: the 200 status, the two headers
    and the configured body, in that order. *)
Theorem respond_response_independent :
  forall rt rt' m m' p p' hs hs' ca ca' srv w w',
    latin1_text (response_content_type srv) = true ->
    reads_available (request m p hs ca srv) w ->
    reads_available (request m' p' hs' ca' srv) w' ->
    filter is_response (trace (_respond rt (request m p hs ca srv)) w)
    = filter is_response (trace (_respond rt' (request m' p' hs' ca' srv)) w')
    /\ filter is_response (trace (_respond rt (request m p hs ca srv)) w)
       = [ SendResponse 200;
           SendHeader (lit "Content-Type") (response_content_type srv);
           SendHeader (lit "Content-Length")
                      (str_of_Z (len (response_body srv)));
           EndHeaders;
           WfileWrite (response_body srv) ].
Proof.
  intros. rewrite !respond_sends_fixed_response. split; reflexivity.
Qed.

Lemma respond_response_independent_witness :
  filter is_response
    (trace (_respond example_runtime
              (request (lit "POST") (lit "/submit")
                       [(lit "Content-Length", lit "2")]
                       example_client example_server))
           example_world)
  = filter is_response
      (trace (_respond example_runtime
                (request (lit "GET") (lit "/") []
                         example_client example_server))
             example_world).
Proof.
  apply (respond_response_independent example_runtime example_runtime
           (lit "POST") (lit "GET") (lit "/submit") (lit "/")
           [(lit "Content-Length", lit "2")] []
           example_client example_client example_server
           example_world example_world).
  - reflexivity.
  - intros n H. vm_compute in H. destruct H as [H | []].
    injection H as <-. vm_compute. discriminate.
  - intros n H. vm_compute in H. destruct H.
Defined.

(** X4.  A request whose method is one of the six the class binds, which
    declares no more bytes than its connection holds, to a server whose
    content type is Latin-1 text, is handled by [_respond]: the body is
    read as [_read_body] reads it, the transcript is logged in one call,
    then the calls of the fixed response are made; the method shows only in
    the transcript. *)
Theorem bound_method_served :
  forall rt m p hs ca srv w,
    In (lit "do_" ++ m) do_names ->
    latin1_text (response_content_type srv) = true ->
    reads_available (request m p hs ca srv) w ->
    trace (handle_one_request rt (request m p hs ca srv)) w
    = trace (_read_body (request m p hs ca srv)) w
      ++ LoggerInfo (join [NL] (transcript rt (request m p hs ca srv) w))
      :: fixed_response srv
    /\ trace (_read_body (request m p hs ca srv)) w
       = trace (_read_body (request (lit "GET") p hs ca srv)) w
    /\ final (handle_one_request rt (request m p hs ca srv)) w
       = final (_read_body (request m p hs ca srv)) w.
Proof.
  intros rt m p hs ca srv w H _ _.
  rewrite (dispatch_known rt (request m p hs ca srv) H).
  split; [apply respond_trace|].
  split; [reflexivity|].
  unfold final, _respond, log_request, datetime_now, emit_event, bind.
  destruct (_read_body (request m p hs ca srv) w) as [[body w1] t1].
  reflexivity.
Qed.

Lemma bound_method_served_witness :
  final (handle_one_request example_runtime
           (request (lit "DELETE") (lit "/item/7")
                    [(lit "Content-Length", lit "2")]
                    example_client example_server))
        example_world
  = final (_read_body
             (request (lit "DELETE") (lit "/item/7")
                      [(lit "Content-Length", lit "2")]
                      example_client example_server))
          example_world.
Proof.
  apply (bound_method_served example_runtime (lit "DELETE")
           (lit "/item/7") [(lit "Content-Length", lit "2")]
           example_client example_server example_world).
  - vm_compute. tauto.
  - reflexivity.
  - intros n H. vm_compute in H. destruct H as [H | []].
    injection H as <-. vm_compute. discriminate.
Defined.

(** X5.  A request whose method is none of the six names (the names are
    matched as written: [get] is not [GET]) is refused with one
    [send_error(501)]: nothing is read from the connection, nothing is
    logged, and the stream is left as it was. *)
Theorem unbound_method_refused :
  forall rt m p hs ca srv w,
    ~ In (lit "do_" ++ m) do_names ->
    handle_one_request rt (request m p hs ca srv) w
    = (tt, w,
       [SendError 501 (lit "Unsupported method (" ++ Py.repr_str rt m
                       ++ lit ")")]).
Proof.
  intros rt m p hs ca srv w H.
  unfold handle_one_request, getattr_do. cbn [command request].
  replace (existsb (pystr_eqb (lit "do_" ++ m)) do_names) with false;
    [reflexivity|].
  symmetry. apply not_true_is_false. intros E.
  apply existsb_exists in E as (x & Hx & Ex).
  apply pystr_eqb_eq in Ex. subst x. contradiction.
Qed.

Lemma unbound_method_refused_witness :
  trace (handle_one_request example_runtime
           (request (lit "get") (lit "/") [(lit "Content-Length", lit "2")]
                    example_client example_server))
        example_world
  = [SendError 501 (lit "Unsupported method ('get')")].
Proof.
  unfold trace.
  rewrite (unbound_method_refused example_runtime (lit "get") (lit "/")
             [(lit "Content-Length", lit "2")]
             example_client example_server example_world).
  - reflexivity.
  - vm_compute. intuition discriminate.
Defined.

(** ** Replay commands *)

(** X6.  Quoting isolates a value: whatever characters it holds (quotes,
    spaces, backslashes, line breaks, nothing at all), the quoted form is read
    back by the shell rule as one word with exactly that value, also when
    another quoted value follows. *)
Theorem shell_quote_round_trip :
  forall a b,
    Replay.tokens (_shell_quote a) = Some [Replay.Quoted a]
    /\ Replay.tokens (_shell_quote a ++ [SP] ++ _shell_quote b)
       = Some [Replay.Quoted a; Replay.Quoted b].
Proof.
  intros a b. split.
  - apply (ReplayFacts.tokens_render [Replay.Quoted a]).
    repeat constructor.
  - apply (ReplayFacts.tokens_render [Replay.Quoted a; Replay.Quoted b]).
    repeat constructor.
Qed.

Lemma flat_map_pairs_length {A B} (f g : A -> B) (l : list A) :
  List.length (flat_map (fun a => [f a; g a]) l) = (2 * List.length l)%nat.
Proof. induction l as [|a l IH]; cbn [flat_map app List.length]; lia. Qed.

Lemma flat_map_single_length {A B} (f : A -> B) (l : list A) :
  List.length (flat_map (fun a => [f a]) l) = List.length l.
Proof. induction l as [|a l IH]; cbn [flat_map app List.length]; lia. Qed.

Lemma skipn_app_exact {A} (n : nat) (a b : list A) :
  List.length a = n -> skipn n (a ++ b) = b.
Proof.
  intros <-. rewrite skipn_app, skipn_all, Nat.sub_diag. reflexivity.
Qed.

(** X7.  The curl command is shell-safe: for a method that can stand
    unquoted, the command splits into [curl -i -X method], two words per
    header whatever the header holds, then, only if the body is not empty,
    one data flag ([--data-raw] when the body is valid UTF-8,
    [--data-binary] otherwise) with the body text as one word, then the
    URL as the last word. *)
Theorem curl_command_words :
  forall m u h (b : bytes),
    Replay.plain_word m ->
    exists ws,
      Replay.tokens (build_curl m u h b) = Some ws
      /\ List.length ws
         = (5 + 2 * List.length h
            + match b with [] => 0 | _ => 2 end)%nat
      /\ firstn 4 ws
         = [Replay.Plain (lit "curl"); Replay.Plain (lit "-i");
            Replay.Plain (lit "-X"); Replay.Plain m]
      /\ skipn (4 + 2 * List.length h) ws
         = match b with
           | [] => [Replay.Quoted u]
           | _ =>
               match Codec.utf8_decode b with
               | Some t => [Replay.Plain (lit "--data-raw");
                            Replay.Quoted t; Replay.Quoted u]
               | None => [Replay.Plain (lit "--data-binary");
                          Replay.Quoted (Codec.latin1_decode b);
                          Replay.Quoted u]
               end
           end.
Proof.
  intros m u h b Hm. exists (Replay.curl_words m u h b).
  split.
  { rewrite ReplayFacts.build_curl_words.
    apply ReplayFacts.tokens_render. now apply ReplayFacts.curl_words_ok. }
  unfold Replay.curl_words, Replay.curl_data_words.
  split; [|split].
  - cbn [app List.length]. rewrite !length_app, flat_map_pairs_length.
    unfold pystr in *.
    destruct b as [|b0 b]; [cbn [List.length]; lia|].
    destruct (Codec.utf8_decode (b0 :: b)); cbn [List.length]; lia.
  - reflexivity.
  - rewrite (app_assoc [_; _; _; _]).
    rewrite skipn_app_exact
      by (rewrite length_app, flat_map_pairs_length; reflexivity).
    destruct b as [|b0 b]; [reflexivity|].
    destruct (Codec.utf8_decode (b0 :: b)); reflexivity.
Qed.

Lemma curl_command_words_witness :
  exists ws,
    Replay.tokens
      (build_curl (lit "PUT") (lit "http://h/a b")
                  [(lit "X-Note", lit "it's  two;words")] [xff])
    = Some ws
    /\ List.length ws = 9%nat.
Proof.
  destruct (curl_command_words (lit "PUT") (lit "http://h/a b")
              [(lit "X-Note", lit "it's  two;words")] [xff])
    as (ws & Hws & Hlen & _).
  - apply ReplayFacts.plain_lit. vm_compute. reflexivity.
  - exists ws. split; [exact Hws|exact Hlen].
Defined.

(** X8.  The httpie command is shell-safe in the same way: [http -v method],
    the URL as one word, one word per header, then, only if the body is not
    empty, [--raw] and the body text as one word (the UTF-8 text when the
    body is valid UTF-8, its Latin-1 reading otherwise). *)
Theorem httpie_command_words :
  forall m u h (b : bytes),
    Replay.plain_word m ->
    exists ws,
      Replay.tokens (build_httpie m u h b) = Some ws
      /\ List.length ws
         = (4 + List.length h + match b with [] => 0 | _ => 2 end)%nat
      /\ firstn 4 ws
         = [Replay.Plain (lit "http"); Replay.Plain (lit "-v");
            Replay.Plain m; Replay.Quoted u]
      /\ skipn (4 + List.length h) ws
         = match b with
           | [] => []
           | _ =>
               match Codec.utf8_decode b with
               | Some t => [Replay.Plain (lit "--raw"); Replay.Quoted t]
               | None => [Replay.Plain (lit "--raw");
                          Replay.Quoted (Codec.latin1_decode b)]
               end
           end.
Proof.
  intros m u h b Hm. exists (Replay.httpie_words m u h b).
  split.
  { rewrite ReplayFacts.build_httpie_words.
    apply ReplayFacts.tokens_render. now apply ReplayFacts.httpie_words_ok. }
  unfold Replay.httpie_words, Replay.httpie_data_words, Replay.body_text.
  split; [|split].
  - cbn [app List.length]. rewrite !length_app, flat_map_single_length.
    unfold pystr in *.
    destruct b as [|b0 b]; [cbn [List.length]; lia|].
    destruct (Codec.utf8_decode (b0 :: b)); cbn [List.length]; lia.
  - reflexivity.
  - rewrite (app_assoc [_; _; _; _]).
    rewrite skipn_app_exact
      by (rewrite length_app, flat_map_single_length; reflexivity).
    destruct b as [|b0 b]; [reflexivity|].
    destruct (Codec.utf8_decode (b0 :: b)); reflexivity.
Qed.

Lemma httpie_command_words_witness :
  exists ws,
    Replay.tokens
      (build_httpie (lit "PUT") (lit "http://h/a b")
                    [(lit "X-Note", lit "it's  two;words")] [])
    = Some ws
    /\ List.length ws = 5%nat.
Proof.
  destruct (httpie_command_words (lit "PUT") (lit "http://h/a b")
              [(lit "X-Note", lit "it's  two;words")] [])
    as (ws & Hws & Hlen & _).
  - apply ReplayFacts.plain_lit. vm_compute. reflexivity.
  - exists ws. split; [exact Hws|exact Hlen].
Defined.

(** ** The transcript *)

(** X9.  The [utf8] field of the transcript is faithful when it can be: for
    a body that is valid UTF-8 it is the decoded text, from which the body
    is recovered by encoding it again; for a body that is not, it holds at
    least one replacement character U+FFFD. *)
Theorem utf8_field_faithful :
  forall rt ts m p u h (b : bytes) c,
    (forall t,
        Codec.utf8_decode b = Some t ->
        field 9 (lit "  utf8: ") (lines rt ts m p u h b c) = Some t
        /\ Codec.utf8_encode t = Some b)
    /\ (Codec.utf8_decode b = None ->
        exists t,
          field 9 (lit "  utf8: ") (lines rt ts m p u h b c) = Some t
          /\ In 0xFFFD t).
Proof.
  intros rt ts m p u h b c. unfold field, lines. cbn [nth_error].
  rewrite strip_prefix_app. split.
  - intros t Ht. split; [|now apply CodecFacts.utf8_roundtrip].
    destruct b as [|b0 b]; [now injection Ht as <-|].
    f_equal. now apply replace_of_valid.
  - intros Hb. eexists. split; [reflexivity|].
    destruct b as [|b0 b]; [discriminate|].
    now apply replace_of_invalid.
Qed.

Lemma utf8_field_faithful_witness :
  field 9 (lit "  utf8: ")
        (lines example_runtime (lit "2024-05-01T10:00:00") (lit "POST")
               (lit "/") (lit "http://h/") [] [xc3; xa9] (lit "127.0.0.1"))
  = Some [233]
  /\ exists t,
       field 9 (lit "  utf8: ")
             (lines example_runtime (lit "2024-05-01T10:00:00") (lit "POST")
                    (lit "/") (lit "http://h/") [] [xe9] (lit "127.0.0.1"))
       = Some t
       /\ In 0xFFFD t.
Proof.
  split.
  - apply (proj1 (utf8_field_faithful example_runtime
                    (lit "2024-05-01T10:00:00") (lit "POST") (lit "/")
                    (lit "http://h/") [] [xc3; xa9] (lit "127.0.0.1"))).
    vm_compute. reflexivity.
  - apply (proj2 (utf8_field_faithful example_runtime
                    (lit "2024-05-01T10:00:00") (lit "POST") (lit "/")
                    (lit "http://h/") [] [xe9] (lit "127.0.0.1"))).
    vm_compute. reflexivity.
Defined.

(** X10.  A replay tool can take the request from the log: when the curl
    command holds no line boundary character (and, as for any reading of
    the command, the method can stand unquoted and no header name holds a
    colon), the line under [curl: |] in the transcript is the command
    indented by four spaces, and reading it back gives the method, the URL,
    the headers and the body bytes of the request. *)
Theorem transcript_curl_line_read_back :
  forall rt ts m p u h (b : bytes) c,
    Replay.plain_word m ->
    Forall (fun kv => ~ In COLON (fst kv)) h ->
    forallb (fun x => negb (Py.is_linebreak x)) (build_curl m u h b) = true ->
    field 13 (lit "    ") (lines rt ts m p u h b c)
    = Some (build_curl m u h b)
    /\ Replay.read_curl (build_curl m u h b) = Some (m, u, h, b).
Proof.
  intros rt ts m p u h b c Hm Hh Hl.
  split; [|now apply ReplayFacts.read_curl_build].
  unfold field, lines. cbn [nth_error].
  assert (E : exists s, build_curl m u h b = 99 :: s).
  { rewrite ReplayFacts.build_curl_words. unfold Replay.curl_words.
    cbn [app map Replay.render]. rewrite ReplayFacts.join_cons2.
    eexists. reflexivity. }
  destruct E as (s & E). rewrite E in *.
  rewrite indent_one_line by (reflexivity || assumption).
  apply strip_prefix_app.
Qed.

Lemma transcript_curl_line_read_back_witness :
  field 13 (lit "    ")
        (lines example_runtime (lit "2024-05-01T10:00:00") (lit "POST")
               (lit "/submit") (lit "http://example.com:6565/submit")
               [(lit "X-Note", lit "it's")] [xe9; x27] (lit "127.0.0.1"))
  = Some (build_curl (lit "POST") (lit "http://example.com:6565/submit")
                     [(lit "X-Note", lit "it's")] [xe9; x27]).
Proof.
  apply (transcript_curl_line_read_back example_runtime
           (lit "2024-05-01T10:00:00") (lit "POST") (lit "/submit")
           (lit "http://example.com:6565/submit")
           [(lit "X-Note", lit "it's")] [xe9; x27] (lit "127.0.0.1")).
  - apply ReplayFacts.plain_lit. vm_compute. reflexivity.
  - repeat constructor. simpl. intuition discriminate.
  - vm_compute. reflexivity.
Defined.

(** ** Startup *)

Module StartupFacts.
Import Startup.

Lemma contains_app_r (sub a b : pystr) :
  contains sub b = true -> contains sub (a ++ b) = true.
Proof.
  intros H. induction a as [|x a IH]; [exact H|].
  cbn [app contains]. rewrite IH. apply orb_true_r.
Qed.

(** Unfolds a run of the startup code and splits on every decision the
    system or the arguments make in it. *)
Ltac run :=
  unfold events, state_after, ending, main, configure_logger, ensure_log_dir,
    load_response_body, attempt, bind_and_activate, try_except_finally,
    serve_forever,
    server_close, logger_info, sbind, sret, path_exists in *;
  repeat match goal with
         | |- context [match ?x with _ => _ end] =>
             lazymatch x with
             | context [match _ with _ => _ end] => fail
             | _ => destruct x eqn:?
             end
         | H : context [match ?x with _ => _ end] |- _ =>
             lazymatch x with
             | context [match _ with _ => _ end] => fail
             | _ => destruct x eqn:?
             end
         end;
  cbn [fst snd app level handlers existing] in *.

Lemma filter_emits (f : sys_event -> bool) (m : pystr)
    (l : list log_handler) :
  (forall e, is_emit e = true -> f e = false) ->
  filter f (map (emit_record m) l) = [].
Proof.
  intros Hf. induction l as [|h l IH]; [reflexivity|].
  cbn [map filter]. rewrite Hf, IH; [reflexivity|]. now destruct h.
Qed.

Lemma serve_not_emit (e : sys_event) : is_emit e = true -> is_serve e = false.
Proof. now destruct e. Qed.

Lemma truncate_not_emit (e : sys_event) :
  is_emit e = true -> is_truncate e = false.
Proof. now destruct e. Qed.

Lemma bind_not_emit (e : sys_event) : is_emit e = true -> is_bind e = false.
Proof. now destruct e. Qed.

Lemma from_first_emits (m : pystr) (h : log_handler) (l : list log_handler)
    (r : list sys_event) :
  from_first is_emit (map (emit_record m) (h :: l) ++ r)
  = map (emit_record m) (h :: l) ++ r.
Proof. now destruct h. Qed.

(** Pushes [filter] through the events of a run. *)
Ltac filters :=
  repeat (progress (cbn [filter is_serve is_truncate is_bind app] in *;
                    repeat rewrite filter_app in *;
                    repeat rewrite (filter_emits is_serve) in *
                      by exact serve_not_emit;
                    repeat rewrite (filter_emits is_truncate) in *
                      by exact truncate_not_emit;
                    repeat rewrite (filter_emits is_bind) in *
                      by exact bind_not_emit)).

Lemma closes_cons (e : sys_event) (l : list sys_event) :
  closes l -> closes (e :: l).
Proof. intros (b & ->). now exists (e :: b). Qed.

Lemma closes_app (a l : list sys_event) : closes l -> closes (a ++ l).
Proof. intros (b & ->). exists (a ++ b). now rewrite app_assoc. Qed.

Lemma closes_one : closes [ServerClose].
Proof. now exists []. Qed.

End StartupFacts.

Import Startup StartupFacts.

(** X11.  [determine_content_type] never returns the empty string; an
    override that is not empty is returned as it is, whatever the file; and
    without one (none given, or the empty string), a result of type
    [text/...] always names a charset. *)
Theorem content_type_defaults :
  forall g path ov,
    (exists c r, determine_content_type g path ov = c :: r)
    /\ (forall c o,
          ov = Some (c :: o) -> determine_content_type g path ov = c :: o)
    /\ (ov = None \/ ov = Some [] ->
        startswith (lit "text/") (determine_content_type g path ov) = true ->
        contains (lit "charset") (determine_content_type g path ov) = true).
Proof.
  intros g path ov. split; [|split].
  - unfold determine_content_type.
    destruct ov as [[|c o]|]; try (now eexists; eexists);
      (destruct (g path) as [[|x guessed]|]; try (now eexists; eexists);
       destruct (startswith (lit "text/") (x :: guessed)
                 && negb (contains (lit "charset") (x :: guessed)));
       now eexists; eexists).
  - now intros c o ->.
  - intros Hov. unfold determine_content_type.
    assert (E : match ov with Some (c :: o) => False | _ => True end)
      by (destruct Hov as [-> | ->]; exact I).
    destruct ov as [[|c o]|]; try contradiction;
      (destruct (g path) as [[|x guessed]|]; try reflexivity;
       destruct (startswith (lit "text/") (x :: guessed)) eqn:S;
       destruct (contains (lit "charset") (x :: guessed)) eqn:C;
       cbn [andb negb]; intros H; try congruence;
       now apply contains_app_r).
Qed.

Lemma content_type_defaults_witness :
  contains (lit "charset")
           (determine_content_type (fun _ => Some (lit "text/html"))
                                   (lit "index.html") (Some []))
  = true.
Proof.
  apply (content_type_defaults (fun _ => Some (lit "text/html"))
           (lit "index.html") (Some [])).
  - now right.
  - vm_compute. reflexivity.
Defined.

(** X12.  [ensure_log_dir] makes the directory at most once: it asks for at
    most one [makedirs], and once it has returned, a second call for the
    same path does nothing. *)
Theorem ensure_log_dir_once :
  forall env path p,
    ending (ensure_log_dir env path) p = Returned tt ->
    events (ensure_log_dir env path)
           (state_after (ensure_log_dir env path) p) = []
    /\ (List.length (events (ensure_log_dir env path) p) <= 1)%nat.
Proof.
  intros env path p H. run; try discriminate;
    try (cbn [existsb] in *; rewrite pystr_eqb_refl in *; discriminate);
    split; cbn [List.length]; try reflexivity; try lia; congruence.
Qed.

Lemma ensure_log_dir_once_witness :
  events (ensure_log_dir example_env (lit "logs/requests.log"))
         (state_after (ensure_log_dir example_env (lit "logs/requests.log"))
                      (fresh_process []))
  = [].
Proof.
  apply (ensure_log_dir_once example_env (lit "logs/requests.log")
           (fresh_process [])).
  vm_compute. reflexivity.
Defined.

(** X13.  [configure_logger] attaches its two handlers once: after a first
    call that returned on a logger without handlers, the logger has the
    file handler of that call and the stream handler; a later call, even
    for another path, opens no file and leaves the handlers as they are, so
    a message is written once to the first file and once to the stream. *)
Theorem configure_logger_idempotent :
  forall env q1 q2 p msg,
    handlers p = [] ->
    ending (configure_logger env q1) p = Returned tt ->
    handlers (state_after (configure_logger env q1) p)
    = [FileHandler q1; StreamHandler]
    /\ handlers (state_after (configure_logger env q2)
                   (state_after (configure_logger env q1) p))
       = [FileHandler q1; StreamHandler]
    /\ filter is_open_append
         (events (configure_logger env q2)
                 (state_after (configure_logger env q1) p)) = []
    /\ events (logger_info msg)
         (state_after (configure_logger env q2)
                      (state_after (configure_logger env q1) p))
       = [FileEmit q1 msg; StreamEmit msg].
Proof.
  intros env q1 q2 p msg Hh Hok.
  run; try discriminate; try congruence; repeat split; try reflexivity.
  all: try discriminate.
Qed.

Lemma configure_logger_idempotent_witness :
  events (logger_info (lit "hello"))
         (state_after (configure_logger example_env (lit "other.log"))
            (state_after (configure_logger example_env (lit "requests.log"))
                         (fresh_process [])))
  = [FileEmit (lit "requests.log") (lit "hello"); StreamEmit (lit "hello")].
Proof.
  apply (configure_logger_idempotent example_env (lit "requests.log")
           (lit "other.log") (fresh_process []) (lit "hello")).
  - reflexivity.
  - vm_compute. reflexivity.
Defined.

(** X14.  When the response file cannot be read, [main] stops there with
    the error: the log file is neither created nor truncated, the logger is
    not configured and no socket is bound. *)
Theorem main_stops_when_body_unreadable :
  forall env args p,
    file_content env (response_file args) = None ->
    main env args p = ([OpenRead (response_file args)], p, Raised OSError).
Proof.
  intros env args p H. unfold main, sbind, load_response_body. now rewrite H.
Qed.

Lemma main_stops_when_body_unreadable_witness :
  events (main example_env (example_args (lit "missing.txt") true))
         (fresh_process [])
  = [OpenRead (lit "missing.txt")].
Proof.
  unfold events.
  rewrite (main_stops_when_body_unreadable example_env
             (example_args (lit "missing.txt") true) (fresh_process [])).
  - reflexivity.
  - vm_compute. reflexivity.
Defined.

(** X15.  The server [main] serves carries what was loaded at startup: its
    body is the content of the response file as read then and its content
    type is the result of [determine_content_type]; so, when that content
    type is Latin-1 text, the bytes [_respond] writes to a client whose
    request declares no more bytes than its connection holds are the bytes
    of that file. *)
Theorem main_serves_loaded_body :
  forall env args p srv,
    In (ServeForever srv) (events (main env args) p) ->
    file_content env (response_file args) = Some (response_body srv)
    /\ response_content_type srv
       = determine_content_type (guess_type env) (response_file args)
                                (content_type args)
    /\ (forall rt m pa hs ca w,
          latin1_text (response_content_type srv) = true ->
          reads_available (request m pa hs ca srv) w ->
          filter is_write (trace (_respond rt (request m pa hs ca srv)) w)
          = [WfileWrite (response_body srv)]).
Proof.
  intros env args p srv H.
  assert (F : In (ServeForever srv)
                 (filter is_serve (events (main env args) p)))
    by (apply filter_In; split; [exact H|reflexivity]).
  clear H.
  assert (AB : file_content env (response_file args)
               = Some (response_body srv)
               /\ response_content_type srv
                  = determine_content_type (guess_type env)
                      (response_file args) (content_type args)).
  { revert F. run; filters; intros F; cbn [In] in F;
      try contradiction;
      destruct F as [F | []]; injection F as <-;
      split; reflexivity || assumption. }
  destruct AB as [A B]. split; [exact A|]. split; [exact B|].
  intros rt m pa hs ca w _ _. rewrite respond_trace, filter_app.
  replace (filter is_write (trace (_read_body (request m pa hs ca srv)) w))
    with (@nil event); [reflexivity|].
  symmetry. pose proof (read_body_trace (request m pa hs ca srv) w) as R.
  induction (trace (_read_body (request m pa hs ca srv)) w) as [|e l IH];
    [reflexivity|].
  cbn [forallb] in R. apply andb_true_iff in R as [Re Rl].
  destruct e; try discriminate. cbn [filter is_write]. now apply IH.
Qed.

Lemma main_serves_loaded_body_witness :
  filter is_write
    (trace (_respond example_runtime
              (request (lit "GET") (lit "/") [] example_client
                 {| server_name := lit "0.0.0.0"; server_port := 6565;
                    response_body := [x6f; x6b];
                    response_content_type := lit "text/plain; charset=utf-8" |}))
           example_world)
  = [WfileWrite [x6f; x6b]].
Proof.
  apply (main_serves_loaded_body example_env
           (example_args (lit "body.txt") false) (fresh_process [])
           {| server_name := lit "0.0.0.0"; server_port := 6565;
              response_body := [x6f; x6b];
              response_content_type := lit "text/plain; charset=utf-8" |}).
  - vm_compute. tauto.
  - reflexivity.
  - intros n H. vm_compute in H. destruct H.
Defined.

(** X16.  Once [main] has started to serve, it always closes the listening
    socket, as the last thing it does, however [serve_forever] ends; [main]
    returns normally after an interrupt from the keyboard and lets any
    other exception through. *)
Theorem main_closes_listener :
  forall env args p srv,
    In (ServeForever srv) (events (main env args) p) ->
    closes (events (main env args) p)
    /\ ending (main env args) p
       = match serve_ends_with env with
         | KeyboardInterrupt => Returned tt
         | e => Raised e
         end.
Proof.
  intros env args p srv H.
  assert (F : In (ServeForever srv)
                 (filter is_serve (events (main env args) p)))
    by (apply filter_In; split; [exact H|reflexivity]).
  clear H. revert F. run; filters; intros F; cbn [In] in F;
    try contradiction; clear F.
  all: split; [|reflexivity].
  all: repeat first [apply closes_one | apply closes_cons | apply closes_app].
Qed.

Lemma main_closes_listener_witness :
  closes (events (main example_env (example_args (lit "body.txt") false))
                 (fresh_process [])).
Proof.
  apply (main_closes_listener example_env
           (example_args (lit "body.txt") false) (fresh_process [])
           {| server_name := lit "0.0.0.0"; server_port := 6565;
              response_body := [x6f; x6b];
              response_content_type := lit "text/plain; charset=utf-8" |}).
  vm_compute. tauto.
Defined.

(** X17.  [main] touches the log file in a safe order: without
    [--clear-log] nothing is truncated; and in every run, once a line has
    been logged, no truncation and no bind follows, so the start line is
    written only after the socket is bound and is never cut off. *)
Theorem main_setup_before_logging :
  forall env args p,
    (clear_log args = false ->
     filter is_truncate (events (main env args) p) = [])
    /\ filter is_truncate (from_first is_emit (events (main env args) p)) = []
    /\ filter is_bind (from_first is_emit (events (main env args) p)) = [].
Proof.
  intros env args p. split; [|split].
  - intros H. run; filters; try reflexivity; congruence.
  - run;
      repeat match goal with
             | H : handlers ?q = _ :: _ |- context [handlers ?q] => rewrite H
             end;
      repeat (progress (cbn [from_first is_emit app] in *;
                        rewrite ?from_first_emits in *));
      filters; reflexivity.
  - run;
      repeat match goal with
             | H : handlers ?q = _ :: _ |- context [handlers ?q] => rewrite H
             end;
      repeat (progress (cbn [from_first is_emit app] in *;
                        rewrite ?from_first_emits in *));
      filters; reflexivity.
Qed.

Lemma main_setup_before_logging_witness :
  filter is_truncate
    (events (main example_env (example_args (lit "body.txt") false))
            (fresh_process []))
  = [].
Proof.
  apply (proj1 (main_setup_before_logging example_env
                  (example_args (lit "body.txt") false) (fresh_process []))).
  reflexivity.
Defined.

(** X18.  When [main] has started to serve from a logger without handlers,
    every message logged from then on, the transcripts of the requests
    among them, is written once to the log file named in the arguments and
    once to the console stream. *)
Theorem main_log_sink :
  forall env args p srv msg,
    handlers p = [] ->
    In (ServeForever srv) (events (main env args) p) ->
    events (logger_info msg) (state_after (main env args) p)
    = [FileEmit (log_file args) msg; StreamEmit msg].
Proof.
  intros env args p srv msg Hh H.
  assert (F : In (ServeForever srv)
                 (filter is_serve (events (main env args) p)))
    by (apply filter_In; split; [exact H|reflexivity]).
  clear H. revert F. run; filters; intros F; cbn [In] in F;
    try contradiction; try congruence; try reflexivity; try discriminate.
Qed.

Lemma main_log_sink_witness :
  events (logger_info (lit "block"))
         (state_after (main example_env (example_args (lit "body.txt") true))
                      (fresh_process []))
  = [FileEmit (lit "requests.log") (lit "block"); StreamEmit (lit "block")].
Proof.
  apply (main_log_sink example_env (example_args (lit "body.txt") true)
           (fresh_process [])
           {| server_name := lit "0.0.0.0"; server_port := 6565;
              response_body := [x6f; x6b];
              response_content_type := lit "text/plain; charset=utf-8" |}
           (lit "block")).
  - reflexivity.
  - vm_compute. tauto.
Defined.

(** ** The header mapping *)

(** X19.  The mapping [_respond] builds from the header lines holds every
    name once, has no more entries than there were lines, keeps every name
    that arrived, and building it again from its own entries changes
    nothing. *)
Theorem header_mapping_invariants :
  forall items,
    NoDup (map fst (Py.dict_of_items items))
    /\ (List.length (Py.dict_of_items items) <= List.length items)%nat
    /\ (forall k, existsb (pystr_eqb k) (map fst (Py.dict_of_items items))
                  = existsb (pystr_eqb k) (map fst items))
    /\ Py.dict_of_items (Py.dict_of_items items) = Py.dict_of_items items.
Proof.
  intros items.
  assert (ND : NoDup (map fst (Py.dict_of_items items)))
    by (apply fold_nodup; constructor).
  split; [exact ND|]. split; [|split].
  - unfold Py.dict_of_items.
    assert (G : forall d,
               (List.length (fold_left Py.dict_step items d)
                <= List.length d + List.length items)%nat).
    { clear ND.
      induction items as [|[k v] items IH]; intros d; cbn [fold_left List.length].
      - lia.
      - specialize (IH (Py.dict_step d (k, v))).
        assert (List.length (Py.dict_step d (k, v)) <= S (List.length d))%nat.
        { rewrite <- (length_map fst), <- (length_map fst d).
          unfold Py.dict_step. cbn [fst snd]. rewrite DictFacts.dict_set_keys.
          destruct (existsb (pystr_eqb k) (map fst d));
            rewrite ?length_app; cbn [List.length]; lia. }
        lia. }
    specialize (G []). cbn [List.length] in G. lia.
  - intros k. apply eq_true_iff_eq. rewrite !DictFacts.has_key_in.
    unfold Py.dict_of_items.
    assert (G : forall d,
               In k (map fst (fold_left Py.dict_step items d))
               <-> In k (map fst d) \/ In k (map fst items)).
    { clear ND.
      induction items as [|[k0 v0] items IH]; intros d; cbn [fold_left map fst In].
      - tauto.
      - rewrite IH. unfold Py.dict_step. cbn [fst snd].
        rewrite DictFacts.dict_set_keys.
        destruct (existsb (pystr_eqb k0) (map fst d)) eqn:E.
        + apply DictFacts.has_key_in in E.
          split; [tauto|]. intros [H | [<- | H]]; tauto.
        + rewrite in_app_iff. cbn [In]. tauto. }
    rewrite G. cbn [map In]. tauto.
  - unfold Py.dict_of_items at 1.
    rewrite DictFacts.fold_fresh; [reflexivity|exact ND|].
    intros k _ [].
Qed.

(** ** Content-Length as the server writes it *)

Lemma lstrip_id (p : N -> bool) (s : pystr) :
  (forall x, In x s -> p x = false) -> Py.lstrip_by p s = s.
Proof.
  destruct s as [|c s]; [reflexivity|]. intros H. cbn [Py.lstrip_by].
  now rewrite (H c (or_introl eq_refl)).
Qed.

Lemma strip_id (p : N -> bool) (s : pystr) :
  (forall x, In x s -> p x = false) -> Py.strip_by p s = s.
Proof.
  intros H. unfold Py.strip_by. rewrite (lstrip_id p s H).
  rewrite lstrip_id; [apply rev_involutive|].
  intros x Hx. apply H. now apply in_rev.
Qed.

Lemma digits_of_uint (d : Decimal.uint) :
  forallb (Py.in_range 48 57) (lit (NilEmpty.string_of_uint d)) = true.
Proof. induction d; cbn; auto. Qed.

Lemma length_of_uint (d : Decimal.uint) :
  List.length (lit (NilEmpty.string_of_uint d)) = Decimal.nb_digits d.
Proof. induction d; cbn in *; auto. Qed.

Lemma lit_cons (a : ascii) (s : string) :
  lit (String a s) = N_of_ascii a :: lit s.
Proof. reflexivity. Qed.

Lemma parse_digit_step (k : N) (s : pystr) (acc : Z) (cnt : nat) (b : bool) :
  48 <= k <= 57 ->
  Py.parse_digits (k :: s) acc cnt b
  = Py.parse_digits s (acc * 10 + Z.of_N (k - 48)) (S cnt) true.
Proof.
  intros H. cbn [Py.parse_digits]. unfold Py.digit_val, Py.in_range.
  replace ((48 <=? k) && (k <=? 57)) with true by lia. reflexivity.
Qed.

Ltac digit_value :=
  match goal with
  | |- context [Z.of_N (N_of_ascii ?a - 48)] =>
      let v := eval vm_compute in (Z.of_N (N_of_ascii a - 48)) in
      change (Z.of_N (N_of_ascii a - 48)) with v
  end.

Ltac digit_step p :=
  rewrite lit_cons, parse_digit_step by (vm_compute; split; discriminate);
  digit_value;
  match goal with
  | |- context [Py.parse_digits _ ?acc _ _] =>
      replace acc with (Z.pos p) by lia
  end.

Lemma parse_digits_acc (d : Decimal.uint) :
  forall (acc : positive) (cnt : nat),
    Py.parse_digits (lit (NilEmpty.string_of_uint d)) (Z.pos acc) cnt true
    = Some (Z.pos (Pos.of_uint_acc d acc), (cnt + Decimal.nb_digits d)%nat).
Proof.
  induction d; intros acc cnt;
    cbn [NilEmpty.string_of_uint Decimal.nb_digits Pos.of_uint_acc].
  - cbn. do 2 f_equal. lia.
  - digit_step (10 * acc)%positive. rewrite IHd. do 2 f_equal. lia.
  - digit_step (1 + 10 * acc)%positive. rewrite IHd. do 2 f_equal. lia.
  - digit_step (2 + 10 * acc)%positive. rewrite IHd. do 2 f_equal. lia.
  - digit_step (3 + 10 * acc)%positive. rewrite IHd. do 2 f_equal. lia.
  - digit_step (4 + 10 * acc)%positive. rewrite IHd. do 2 f_equal. lia.
  - digit_step (5 + 10 * acc)%positive. rewrite IHd. do 2 f_equal. lia.
  - digit_step (6 + 10 * acc)%positive. rewrite IHd. do 2 f_equal. lia.
  - digit_step (7 + 10 * acc)%positive. rewrite IHd. do 2 f_equal. lia.
  - digit_step (8 + 10 * acc)%positive. rewrite IHd. do 2 f_equal. lia.
  - digit_step (9 + 10 * acc)%positive. rewrite IHd. do 2 f_equal. lia.
Qed.

Ltac first_digit p :=
  digit_step p; rewrite parse_digits_acc; do 2 f_equal; lia.

Lemma parse_digits_uint (d : Decimal.uint) :
  forall (cnt : nat) (b : bool),
    d <> Decimal.Nil ->
    Py.parse_digits (lit (NilEmpty.string_of_uint d)) 0 cnt b
    = Some (Z.of_N (Pos.of_uint d), (cnt + Decimal.nb_digits d)%nat).
Proof.
  induction d; intros cnt b Hd; [congruence| |..];
    cbn [NilEmpty.string_of_uint Decimal.nb_digits Pos.of_uint].
  - rewrite lit_cons, parse_digit_step by (vm_compute; split; discriminate).
    replace (0 * 10 + Z.of_N (N_of_ascii "0" - 48))%Z with 0%Z by reflexivity.
    destruct d; try (rewrite IHd by discriminate; do 2 f_equal; lia).
    cbn. do 2 f_equal. lia.
  - first_digit 1%positive.
  - first_digit 2%positive.
  - first_digit 3%positive.
  - first_digit 4%positive.
  - first_digit 5%positive.
  - first_digit 6%positive.
  - first_digit 7%positive.
  - first_digit 8%positive.
  - first_digit 9%positive.
Qed.

Lemma digit_not_space (c : N) :
  Py.in_range 48 57 c = true -> Py.is_int_space c = false.
Proof.
  unfold Py.is_int_space, Py.is_space, Py.in_range. lia.
Qed.

Lemma int_of_str_of_nonneg (z : Z) :
  (0 <= z)%Z ->
  (List.length (str_of_Z z) <= Py.int_max_str_digits)%nat ->
  Py.int_of_str (str_of_Z z) = Some z.
Proof.
  intros Hz Hlen. unfold str_of_Z in *.
  assert (E : exists d, d <> Decimal.Nil /\ NilZero.string_of_int (Z.to_int z)
                        = NilEmpty.string_of_uint d
                        /\ Z.of_N (Pos.of_uint d) = z).
  { destruct z as [|p|p]; [| |lia].
    - exists (Decimal.D0 Decimal.Nil). repeat split. discriminate.
    - exists (Pos.to_uint p). split; [apply DecimalPos.Unsigned.to_uint_nonnil|].
      split; [|now rewrite DecimalPos.Unsigned.of_to].
      cbn [Z.to_int NilZero.string_of_int]. unfold NilZero.string_of_uint.
      pose proof (DecimalPos.Unsigned.to_uint_nonnil p).
      now destruct (Pos.to_uint p). }
  destruct E as (d & Hd & Es & Ev). rewrite Es in *.
  rewrite length_of_uint in Hlen.
  unfold Py.int_of_str. rewrite strip_id.
  2:{ intros x Hx. apply digit_not_space.
      pose proof (digits_of_uint d) as D. rewrite forallb_forall in D.
      now apply D. }
  pose proof (digits_of_uint d) as D.
  destruct (lit (NilEmpty.string_of_uint d)) as [|c r] eqn:L.
  - destruct d; try congruence;
      cbn [NilEmpty.string_of_uint] in L; rewrite lit_cons in L; discriminate.
  - cbn [forallb] in D. apply andb_true_iff in D as [Dc _].
    unfold Py.in_range in Dc.
    replace (c =? 45) with false by lia. replace (c =? 43) with false by lia.
    unfold Py.parse_unsigned. rewrite <- L, parse_digits_uint by exact Hd.
    cbn [Nat.add]. replace (Nat.leb (Decimal.nb_digits d) Py.int_max_str_digits) with true.
    + now rewrite Ev.
    + symmetry. now apply Nat.leb_le.
Qed.

(** X20.  The decimal text the server writes as its own [Content-Length]
    (Python's [str] of the body length) is read back by [int] as that
    length, as long as it has at most 4300 digits; and [_read_body] frames
    a body sent with such a header exactly: from a stream that starts with
    the body it returns the body, empty or not, and leaves what follows. *)
Theorem content_length_framing :
  forall m p hs ca srv (body rest : bytes) (c : pystr),
    Py.message_get hs (lit "Content-Length") = Some (str_of_Z (len body)) ->
    (List.length (str_of_Z (len body)) <= Py.int_max_str_digits)%nat ->
    Py.int_of_str (str_of_Z (len body)) = Some (len body)
    /\ result (_read_body (request m p hs ca srv))
              {| rfile := body ++ rest; clock := c |} = body
    /\ rfile (final (_read_body (request m p hs ca srv))
                    {| rfile := body ++ rest; clock := c |}) = rest.
Proof.
  intros m p hs ca srv body rest c Hget Hlen.
  assert (Hint : Py.int_of_str (str_of_Z (len body)) = Some (len body))
    by (apply int_of_str_of_nonneg; [unfold len; lia|exact Hlen]).
  split; [exact Hint|].
  unfold result, final, _read_body. cbn [headers request]. rewrite Hget.
  destruct (str_of_Z (len body)) as [|d ds] eqn:E; [discriminate|].
  rewrite Hint. destruct body as [|b body].
  - cbn. split; reflexivity.
  - replace (len (b :: body) >? 0)%Z with true
      by (symmetry; apply Z.gtb_lt; unfold len; cbn [List.length]; lia).
    unfold rfile_read. cbn [fst snd rfile].
    unfold len. rewrite Nat2Z.id.
    rewrite firstn_app, skipn_app, firstn_all, skipn_all, Nat.sub_diag.
    cbn [firstn skipn app]. now rewrite app_nil_r.
Qed.


Lemma content_length_framing_witness :
  result (_read_body
            (request (lit "POST") (lit "/") [(lit "Content-Length", lit "2")]
                     example_client example_server))
         {| rfile := [x6f; x6b] ++ [x47]; clock := [] |}
  = [x6f; x6b].
Proof.
  apply (content_length_framing (lit "POST") (lit "/")
           [(lit "Content-Length", lit "2")] example_client example_server
           [x6f; x6b] [x47] []).
  - reflexivity.
  - vm_compute. lia.
Defined.

(** ** The Base64 field *)

Import Base64.

Lemma char_of_plain (s : N) : s < 64 -> plain_char (char_of s) = true.
Proof.
  intros H.
  assert (A : forallb (fun s => plain_char (char_of s)) sextets = true)
    by (vm_compute; reflexivity).
  rewrite forallb_forall in A. apply A, Base64Facts.sextet_in, H.
Qed.

Lemma b64encode_shape (bs : bytes) :
  List.length (b64encode bs) = (4 * ((List.length bs + 2) / 3))%nat
  /\ forallb plain_char (b64encode bs) = true.
Proof.
  induction bs as [bs IH] using list_length_ind.
  destruct bs as [|a [|b [|c rest]]].
  - split; reflexivity.
  - pose proof (to_N_lt a). cbn [b64encode forallb List.length].
    rewrite !char_of_plain by lia. split; reflexivity.
  - pose proof (to_N_lt a). pose proof (to_N_lt b).
    cbn [b64encode forallb List.length].
    rewrite !char_of_plain by lia. split; reflexivity.
  - pose proof (to_N_lt a). pose proof (to_N_lt b). pose proof (to_N_lt c).
    destruct (IH rest ltac:(cbn [List.length]; lia)) as [IHl IHc].
    cbn [b64encode forallb List.length].
    rewrite !char_of_plain by lia. rewrite IHl, IHc. split; [|reflexivity].
    replace (S (S (S (List.length rest))) + 2)%nat
      with ((List.length rest + 2) + 1 * 3)%nat by lia.
    rewrite Nat.div_add by lia. lia.
Qed.

(** X21.  The [base64] field of the transcript has four characters for
    every three bytes of the body, the last group padded, and holds no
    white space and no line boundary, so it stays on its line whatever the
    body. *)
Theorem base64_field_shape :
  forall rt ts m p u h (b : bytes) c,
    exists f,
      field 10 (lit "  base64: ") (lines rt ts m p u h b c) = Some f
      /\ List.length f = (4 * ((List.length b + 2) / 3))%nat
      /\ forallb plain_char f = true.
Proof.
  intros rt ts m p u h b c. unfold field, lines. cbn [nth_error].
  exists (b64encode b). split.
  - rewrite strip_prefix_app. now destruct b.
  - apply b64encode_shape.
Qed.
